(** * Chunked file transfer over gRPC: client (cliente.py) and server (server.py)

    A shallow embedding of the chunk producer, the stream receiver, the
    file information query and the integrity check, with the properties
    the protocol description states about them. *)

From Stdlib Require Import ZArith List String Ascii Bool Lia.
From Stdlib Require Strings.Byte.
From stdpp Require Import base option list strings gmap fin_maps.
Import ListNotations.

(** ** Python values shared by both programs *)

(** [bytes] objects are lists of bytes, [len] is their length as an integer. *)
Abbreviation bytes := (list Byte.byte).

Definition len {A : Type} (l : list A) : Z := Z.of_nat (length l).

(** The exceptions the two programs can meet, named as Python names them,
    each with its message; all of them are subclasses of [Exception]. *)
Inductive exn : Type :=
| TypeError (msg : string)
| AttributeError (msg : string)
| ValueError (msg : string)
| ZeroDivisionError (msg : string)
| OSError (msg : string)
| RpcError (details : string).

(** [str(e)] *)
Definition str_exn (e : exn) : string :=
  match e with
  | TypeError m | AttributeError m | ValueError m
  | ZeroDivisionError m | OSError m | RpcError m => m
  end.

(** What a call that loops produces: a value, an exception, or no answer
    within the iterations it was allowed. *)
Inductive result (A : Type) : Type :=
| Return (a : A)
| Raise (e : exn)
| OutOfFuel.
Arguments Return {A} a.
Arguments Raise {A} e.
Arguments OutOfFuel {A}.

(** ** hashlib.md5

    The hash object is modelled by what the library documents about it:
    repeated calls of [update] are equivalent to one call with the
    concatenation of the arguments, and [hexdigest] is the MD5 digest
    (RFC 1321) of everything fed so far, as 32 lowercase hexadecimal
    digits. *)
Module hashlib.
Local Open Scope Z_scope.

Definition mask32 (x : Z) : Z := x mod 2 ^ 32.

Definition rotl32 (x c : Z) : Z :=
  mask32 (Z.lor (Z.shiftl x c) (Z.shiftr x (32 - c))).

Definition not32 (x : Z) : Z := Z.lxor x 0xffffffff.

Definition sines : list Z :=
  [ 0xd76aa478; 0xe8c7b756; 0x242070db; 0xc1bdceee;
    0xf57c0faf; 0x4787c62a; 0xa8304613; 0xfd469501;
    0x698098d8; 0x8b44f7af; 0xffff5bb1; 0x895cd7be;
    0x6b901122; 0xfd987193; 0xa679438e; 0x49b40821;
    0xf61e2562; 0xc040b340; 0x265e5a51; 0xe9b6c7aa;
    0xd62f105d; 0x02441453; 0xd8a1e681; 0xe7d3fbc8;
    0x21e1cde6; 0xc33707d6; 0xf4d50d87; 0x455a14ed;
    0xa9e3e905; 0xfcefa3f8; 0x676f02d9; 0x8d2a4c8a;
    0xfffa3942; 0x8771f681; 0x6d9d6122; 0xfde5380c;
    0xa4beea44; 0x4bdecfa9; 0xf6bb4b60; 0xbebfbc70;
    0x289b7ec6; 0xeaa127fa; 0xd4ef3085; 0x04881d05;
    0xd9d4d039; 0xe6db99e5; 0x1fa27cf8; 0xc4ac5665;
    0xf4292244; 0x432aff97; 0xab9423a7; 0xfc93a039;
    0x655b59c3; 0x8f0ccc92; 0xffeff47d; 0x85845dd1;
    0x6fa87e4f; 0xfe2ce6e0; 0xa3014314; 0x4e0811a1;
    0xf7537e82; 0xbd3af235; 0x2ad7d2bb; 0xeb86d391 ].

Definition shifts : list Z :=
  [ 7; 12; 17; 22; 7; 12; 17; 22; 7; 12; 17; 22; 7; 12; 17; 22;
    5; 9; 14; 20; 5; 9; 14; 20; 5; 9; 14; 20; 5; 9; 14; 20;
    4; 11; 16; 23; 4; 11; 16; 23; 4; 11; 16; 23; 4; 11; 16; 23;
    6; 10; 15; 21; 6; 10; 15; 21; 6; 10; 15; 21; 6; 10; 15; 21 ].

Definition byte_of_Z (z : Z) : Byte.byte :=
  match Byte.of_N (Z.to_N (z mod 256)) with
  | Some b => b
  | None => Byte.x00
  end.

Definition Z_of_byte (b : Byte.byte) : Z := Z.of_N (Byte.to_N b).

(** little-endian words *)
Definition word_le (bs : bytes) : Z :=
  fold_right (fun b acc => Z_of_byte b + 256 * acc) 0 bs.

Fixpoint bytes_le (n : nat) (x : Z) : bytes :=
  match n with
  | O => []
  | S k => byte_of_Z x :: bytes_le k (x / 256)
  end.

(** [blocks_of fuel k l] cuts [l] into consecutive pieces of [k] elements. *)
Fixpoint blocks_of {A : Type} (fuel k : nat) (l : list A) : list (list A) :=
  match fuel, l with
  | _, [] => []
  | O, _ => []
  | S f, _ => take k l :: blocks_of f k (drop k l)
  end.

Definition pad (msg : bytes) : bytes :=
  msg ++ [Byte.x80]
      ++ repeat Byte.x00 (Z.to_nat ((55 - len msg) mod 64))
      ++ bytes_le 8 ((8 * len msg) mod 2 ^ 64).

Definition regs : Type := Z * Z * Z * Z.

Definition round (M : list Z) (r : regs) (i : Z) : regs :=
  let '(A, B, C, D) := r in
  let '(F, g) :=
    if i <? 16 then (Z.lor (Z.land B C) (Z.land (not32 B) D), i)
    else if i <? 32 then (Z.lor (Z.land D B) (Z.land (not32 D) C), (5 * i + 1) mod 16)
    else if i <? 48 then (Z.lxor (Z.lxor B C) D, (3 * i + 5) mod 16)
    else (Z.lxor C (Z.lor B (not32 D)), (7 * i) mod 16) in
  let F' := mask32 (F + A + nth (Z.to_nat i) sines 0 + nth (Z.to_nat g) M 0) in
  (D, mask32 (B + rotl32 F' (nth (Z.to_nat i) shifts 0)), B, C).

Definition compress (h : regs) (block : bytes) : regs :=
  let M := map word_le (blocks_of 16 4 block) in
  let '(a0, b0, c0, d0) := h in
  let '(A, B, C, D) := fold_left (round M) (map Z.of_nat (seq 0 64)) h in
  (mask32 (a0 + A), mask32 (b0 + B), mask32 (c0 + C), mask32 (d0 + D)).

Definition init_regs : regs := (0x67452301, 0xefcdab89, 0x98badcfe, 0x10325476).

Definition md5_digest (msg : bytes) : bytes :=
  let p := pad msg in
  let '(A, B, C, D) := fold_left compress (blocks_of (length p) 64 p) init_regs in
  bytes_le 4 A ++ bytes_le 4 B ++ bytes_le 4 C ++ bytes_le 4 D.

Definition hex_digit (n : Z) : ascii :=
  nth (Z.to_nat n) (list_ascii_of_string "0123456789abcdef") "0"%char.

Definition hex_of_bytes (bs : bytes) : string :=
  string_of_list_ascii
    (flat_map (fun b => [hex_digit (Z_of_byte b / 16); hex_digit (Z_of_byte b mod 16)]) bs).

(** The hash object: the bytes fed so far. *)
Record md5_obj : Type := { fed : bytes }.

Definition md5 : md5_obj := {| fed := [] |}.
Definition update (h : md5_obj) (d : bytes) : md5_obj := {| fed := fed h ++ d |}.
Definition hexdigest (h : md5_obj) : string := hex_of_bytes (md5_digest (fed h)).

End hashlib.

(** ** Files

    A path, as the program spells it, names a regular file with its
    content, a directory, or a file for which [stat] reports a size that is
    not the length of what reading it returns (the files under /proc and
    /sys are such files).  A file object opened for reading is the part of
    the content not read yet. *)
Inductive node : Type :=
| File (content : bytes)
| Dir
| Special (st_size : Z) (content : bytes).

Module io.
Local Open Scope Z_scope.

(** [stat().st_size]; the size of a directory is the file system's choice,
    and nothing below depends on it. *)
Definition st_size (nd : node) : Z :=
  match nd with
  | File content => len content
  | Dir => 4096
  | Special size _ => size
  end.

(** [f.read(size)] on a binary file: the bytes read and the file object
    after the read.  A regular file gives [size] bytes until its end is
    reached; [-1] reads to the end; a smaller size is refused. *)
Definition read (f : bytes) (size : Z) : exn + bytes * bytes :=
  if size <? -1 then inl (ValueError "read length must be non-negative or -1")
  else if size =? -1 then inr (f, [])
  else inr (take (Z.to_nat size) f, drop (Z.to_nat size) f).

(** [open(path, "rb")] *)
Definition open_rb (fs : gmap string node) (path : string) : exn + bytes :=
  match fs !! path with
  | None => inl (OSError "No such file or directory")
  | Some Dir => inl (OSError "Is a directory")
  | Some (File content) => inr content
  | Some (Special _ content) => inr content
  end.

End io.

(** The pieces of a path between its separators. *)
Fixpoint split_path (acc : string) (p : string) : list string :=
  match p with
  | EmptyString => [acc]
  | String c p' =>
      if Ascii.eqb c "/" then acc :: split_path EmptyString p'
      else split_path (acc ++ String c EmptyString) p'
  end.

(** [Path(p).parts] without the root: the pieces that are neither empty
    nor [.], which is how a path is read (repeated and trailing separators
    and [.] count for nothing). *)
Definition Path_parts (p : string) : list string :=
  List.filter (fun piece => negb (String.eqb piece "") && negb (String.eqb piece "."))
              (split_path EmptyString p).

(** [Path(p).name]: the last of the parts, or the empty string when there
    is none. *)
Definition Path_name (p : string) : string :=
  List.last (Path_parts p) EmptyString.

(** [dir / name]; an absolute name replaces the directory.  Paths are kept
    as written, not normalised. *)
Definition Path_join (dir name : string) : string :=
  match name with
  | EmptyString => dir
  | String c _ => if Ascii.eqb c "/" then name else dir ++ "/" ++ name
  end.

(** ** Messages *)
Module file_transfer_pb2.

(** Modelled from the spec: the message classes of file_transfer_pb2,
    generated from the protocol definition, which is absent from src/.
    The fields are those the constructor calls of cliente.py and server.py
    name (FileChunk, TransferResponse, FileInfoRequest, FileInfoResponse). *)
Record FileChunk : Type := {
  filename : string;
  data : bytes;
  chunk_number : Z;
  total_chunks : Z;
  is_last_chunk : bool
}.

(** Modelled from the spec: the TransferResponse message of
    file_transfer_pb2, absent from src/; the TransferOutcome of the
    description. *)
Record TransferResponse : Type := {
  success : bool;
  message : string;
  bytes_received : Z
}.

(** Modelled from the spec: the FileInfoRequest message of
    file_transfer_pb2, absent from src/; its one field is [filename]. *)
Record FileInfoRequest : Type := { request_filename : string }.

(** Modelled from the spec: the FileInfoResponse message of
    file_transfer_pb2, absent from src/; [exists_] is its field [exists]. *)
Record FileInfoResponse : Type := {
  exists_ : bool;
  file_size : Z;
  checksum : string
}.

End file_transfer_pb2.
Module pb2 := file_transfer_pb2.

(** ** cliente.py *)
Module Client.
Local Open Scope Z_scope.
Import file_transfer_pb2.

Record FileTransferClient : Type := {
  server_ip : string;
  server_port : Z;
  chunk_size : Z
}.

(** [FileTransferClient(server_ip, server_port)] *)
Definition __init__ (ip : string) (port : Z) : FileTransferClient :=
  {| server_ip := ip; server_port := port; chunk_size := 1024 * 1024 |}.

(** What the generator does, in order: it hands a chunk to its consumer,
    or writes the progress line, computed from [bytes_sent / file_size]. *)
Inductive event : Type :=
| Yield (c : FileChunk)
| Progress (bytes_sent file_size : Z).

(** How the generator ends. *)
Inductive gen_end : Type :=
| StopIteration
| Raised (e : exn)
| Unfinished.

Record gen_run : Type := { events : list event; ended : gen_end }.

Definition stop (e : gen_end) : gen_run := {| events := []; ended := e |}.

Definition emit (ev : event) (r : gen_run) : gen_run :=
  {| events := ev :: events r; ended := ended r |}.

(** The chunks handed out, in order. *)
Definition yielded (r : gen_run) : list FileChunk :=
  omap (fun ev => match ev with Yield c => Some c | Progress _ _ => None end)
       (events r).

(** [total_chunks = (file_size + self.chunk_size - 1) // self.chunk_size] *)
Definition count_chunks (self : FileTransferClient) (file_size : Z) : exn + Z :=
  if chunk_size self =? 0
  then inl (ZeroDivisionError "integer division or modulo by zero")
  else inr ((file_size + chunk_size self - 1) / chunk_size self).

(** The [while True] loop of [_generate_file_chunks]; [f] is the open file,
    [fuel] bounds the iterations. *)
Fixpoint chunk_loop (fuel : nat) (self : FileTransferClient)
    (name : string) (file_size total : Z)
    (f : bytes) (chunk_number bytes_sent : Z) : gen_run :=
  match fuel with
  | O => stop Unfinished
  | S fuel' =>
      match io.read f (chunk_size self) with
      | inl e => stop (Raised e)
      | inr (chunk_data, f') =>
          match chunk_data with
          | [] => stop StopIteration
          | _ :: _ =>
              let chunk_number := chunk_number + 1 in
              let bytes_sent := bytes_sent + len chunk_data in
              let is_last := chunk_number =? total in
              let next :=
                if is_last then stop StopIteration
                else chunk_loop fuel' self name file_size total
                       f' chunk_number bytes_sent in
              emit (Yield {| filename := name;
                             data := chunk_data;
                             chunk_number := chunk_number;
                             total_chunks := total;
                             is_last_chunk := is_last |})
                   (if chunk_number mod 100 =? 0
                    then if file_size =? 0
                         then stop (Raised (ZeroDivisionError "division by zero"))
                         else emit (Progress bytes_sent file_size) next
                    else next)
          end
      end
  end.

(** [_generate_file_chunks(file_path)], run to its end. *)
Definition _generate_file_chunks (self : FileTransferClient)
    (fs : gmap string node) (file_path : string) : gen_run :=
  let name := Path_name file_path in
  match fs !! file_path with
  | None => stop (Raised (OSError "No such file or directory"))
  | Some nd =>
      let file_size := io.st_size nd in
      match count_chunks self file_size with
      | inl e => stop (Raised e)
      | inr total =>
          match io.open_rb fs file_path with
          | inl e => stop (Raised e)
          | inr f =>
              chunk_loop (S (length f)) self name file_size total f 0 0
          end
      end
  end.

(** The loop of [_calculate_md5]: [for chunk in iter(lambda: f.read(4096), b"")]. *)
Fixpoint md5_loop (fuel : nat) (hash_md5 : hashlib.md5_obj) (f : bytes)
    : result hashlib.md5_obj :=
  match fuel with
  | O => OutOfFuel
  | S fuel' =>
      match io.read f 4096 with
      | inl e => Raise e
      | inr ([], _) => Return hash_md5
      | inr (chunk, f') => md5_loop fuel' (hashlib.update hash_md5 chunk) f'
      end
  end.

(** [_calculate_md5(file_path)] *)
Definition _calculate_md5 (fs : gmap string node) (file_path : string)
    : result string :=
  match io.open_rb fs file_path with
  | inl e => Raise e
  | inr f =>
      match md5_loop (S (length f)) hashlib.md5 f with
      | Return h => Return (hashlib.hexdigest h)
      | Raise e => Raise e
      | OutOfFuel => OutOfFuel
      end
  end.

(** What [verify_file] does besides returning: it computes the local
    digest, compares two checksums, writes a line to the log. *)
Inductive effect : Type :=
| Digest (local_path : string)
| Compare (local_checksum remote_checksum : string)
| LogInfo (msg : string)
| LogError (msg : string).

(** [verify_file(filename, local_path)]; [GetFileInfo] is the stub's call,
    which returns the server's answer or raises. *)
Definition verify_file (self : FileTransferClient)
    (GetFileInfo : FileInfoRequest -> exn + FileInfoResponse)
    (fs : gmap string node) (name local_path : string)
    : result bool * list effect :=
  let request := {| request_filename := name |} in
  match GetFileInfo request with
  | inl e => (Return false, [LogError ("Error durante verificación: " ++ str_exn e)])
  | inr response =>
      if exists_ response then
        match _calculate_md5 fs local_path with
        | Return local_checksum =>
            if String.eqb local_checksum (checksum response)
            then (Return true,
                  [Digest local_path; Compare local_checksum (checksum response);
                   LogInfo "✅ Verificación exitosa: Los archivos coinciden"])
            else (Return false,
                  [Digest local_path; Compare local_checksum (checksum response);
                   LogError "❌ Verificación fallida: Los checksums no coinciden"])
        | Raise e =>
            (Return false,
             [Digest local_path; LogError ("Error durante verificación: " ++ str_exn e)])
        | OutOfFuel => (OutOfFuel, [Digest local_path])
        end
      else (Return false, [LogError "❌ El archivo no existe en el servidor"])
  end.

(** What [send_file] writes to the log; the lines tell which way it went. *)
Inductive send_log : Type :=
| Connecting (ip : string) (port : Z)
| TransferOk (bytes_received transfer_time : Z)
| TransferError (message : string)
| GrpcError (details : string)
| UnexpectedError (msg : string).

(** [send_file(file_path)]; [TransferFile] is the stub's call, which is
    handed the generator and returns the server's response or raises.  The
    clock is read before the call and after it, and the two readings are
    only subtracted and compared with zero. *)
Definition send_file (self : FileTransferClient)
    (TransferFile : gen_run -> exn + TransferResponse)
    (fs : gmap string node) (file_path : string) (start_time end_time : Z)
    : bool * list send_log :=
  let connecting := Connecting (server_ip self) (server_port self) in
  match TransferFile (_generate_file_chunks self fs file_path) with
  | inl (RpcError details) => (false, [connecting; GrpcError details])
  | inl e => (false, [connecting; UnexpectedError (str_exn e)])
  | inr response =>
      let transfer_time := end_time - start_time in
      if success response then
        if transfer_time =? 0
        then (false, [connecting; UnexpectedError "float division by zero"])
        else (true, [connecting; TransferOk (bytes_received response) transfer_time])
      else (false, [connecting; TransferError (message response)])
  end.

(** What [_get_channel] gives access to: the two calls of the service. *)
Record channel : Type := {
  TransferFile_rpc : gen_run -> exn + TransferResponse;
  GetFileInfo_rpc : FileInfoRequest -> exn + FileInfoResponse
}.

(** What a run of [main] did: the status the process exits with, what
    [send_file] returned if it was called, what [verify_file] returned if
    it was called. *)
Record main_run : Type := {
  exit_status : Z;
  sent : option bool;
  verified : option (result bool)
}.

(** [main()] with [sys.argv = argv]; [connect] is the network as
    [_get_channel] finds it. *)
Definition main (argv : list string) (connect : FileTransferClient -> channel)
    (fs : gmap string node) (start_time end_time : Z) : main_run :=
  match argv with
  | [_; ip; file_path] =>
      match fs !! file_path with
      | None => {| exit_status := 1; sent := None; verified := None |}
      | Some _ =>
          let client := __init__ ip 50051 in
          let success :=
            fst (send_file client (TransferFile_rpc (connect client))
                   fs file_path start_time end_time) in
          if success then
            let name := Path_name file_path in
            {| exit_status := 0;
               sent := Some true;
               verified :=
                 Some (fst (verify_file client (GetFileInfo_rpc (connect client))
                              fs name file_path)) |}
          else {| exit_status := 0; sent := Some false; verified := None |}
      end
  | _ => {| exit_status := 1; sent := None; verified := None |}
  end.

End Client.

(** ** server.py *)
Module Server.
Local Open Scope Z_scope.
Import file_transfer_pb2.

Record FileTransferServicer : Type := { upload_dir : string }.

(** The machine the servicer runs on: the files; the file objects open for
    writing, each with the path it writes to and the bytes it holds in its
    buffer; the room left on the disk, which takes bytes until it is full;
    the size of the buffer of a file object (the block size of the file
    system); and the paths at which the operating system refuses to open a
    file for writing, each with the error it gives (a missing directory on
    the way, a file where a directory is expected, a name it does not
    accept, a missing permission). *)
Record world : Type := {
  fs : gmap string node;
  open_files : gmap nat (string * bytes);
  disk_free : Z;
  buffer_size : Z;
  open_refused : gmap string exn
}.

(** The local variables of [TransferFile]; [f] is [None] or a file object. *)
Record locals : Type := {
  filename : option string;
  file_path : option string;
  total_bytes : Z;
  chunks_received : Z;
  f : option nat
}.

Record state : Type := { vars : locals; os : world }.

(** Statements: they change the state and return a value or raise. *)
Definition M (A : Type) : Type := state -> (exn + A) * state.

Definition ret {A : Type} (a : A) : M A := fun s => (inr a, s).
Definition raise {A : Type} (e : exn) : M A := fun s => (inl e, s).
Definition bind {A B : Type} (m : M A) (k : A -> M B) : M B :=
  fun s => match m s with
           | (inl e, s') => (inl e, s')
           | (inr a, s') => k a s'
           end.
Definition get : M locals := fun s => (inr (vars s), s).
Definition assign (upd : locals -> locals) : M unit :=
  fun s => (inr tt, {| vars := upd (vars s); os := os s |}).

Notation "'do' x <- m ; k" := (bind m (fun x => k))
  (at level 10, x name, m at level 100, k at level 200).

(** What is stored at a path. *)
Definition stored (w : world) (path : string) : bytes :=
  match fs w !! path with
  | Some (File content) | Some (Special _ content) => content
  | _ => []
  end.

(** The machine with [content] stored at [path] and [free] bytes left. *)
Definition on_disk (w : world) (path : string) (content : bytes) (free : Z)
    : world :=
  {| fs := <[path := File content]> (fs w);
     open_files := open_files w;
     disk_free := free;
     buffer_size := buffer_size w;
     open_refused := open_refused w |}.

(** The machine with [buffer] held by the file object [h] on [path]. *)
Definition holding (w : world) (h : nat) (path : string) (buffer : bytes)
    : world :=
  {| fs := fs w;
     open_files := <[h := (path, buffer)]> (open_files w);
     disk_free := disk_free w;
     buffer_size := buffer_size w;
     open_refused := open_refused w |}.

(** The machine with the file object [h] closed. *)
Definition released (w : world) (h : nat) : world :=
  {| fs := fs w;
     open_files := delete h (open_files w);
     disk_free := disk_free w;
     buffer_size := buffer_size w;
     open_refused := open_refused w |}.

Definition no_space : exn := OSError "No space left on device".

(** [open(path, 'wb')]: a directory cannot be opened, the operating system
    may refuse the path, and otherwise the file is created or emptied, and
    the file object starts with an empty buffer.  The destination is meant
    to be absent or a regular file: what a device or a file of /proc does
    with the bytes written to it is its own, and is not told here. *)
Definition open_wb (path : string) : M nat :=
  fun s =>
    let w := os s in
    match fs w !! path with
    | Some Dir => (inl (OSError "Is a directory"), s)
    | _ =>
        match open_refused w !! path with
        | Some e => (inl e, s)
        | None =>
            let fd := fresh (dom (open_files w)) in
            (inr fd,
             {| vars := vars s;
                os := holding (on_disk w path [] (disk_free w + len (stored w path)))
                        fd path [] |})
        end
    end.

(** One write of the unbuffered file under a file object: the disk takes
    the bytes it has room for and says how many it took, and refuses when
    it is full. *)
Definition raw_write (path : string) (d : bytes) (w : world) : (exn + Z) * world :=
  if disk_free w <=? 0 then (inl no_space, w)
  else
    let n := Z.min (len d) (disk_free w) in
    (inr n, on_disk w path (stored w path ++ take (Z.to_nat n) d) (disk_free w - n)).

(** The file object empties its buffer: it writes until nothing is left,
    which over this disk is one write that takes all, or one that takes a
    part and a second that is refused; what was not written stays in the
    buffer. *)
Definition flush (h : nat) : M unit :=
  fun s =>
    let w := os s in
    match open_files w !! h with
    | None => (inr tt, s)
    | Some (path, []) => (inr tt, s)
    | Some (path, buffer) =>
        match raw_write path buffer w with
        | (inl e, _) => (inl e, s)
        | (inr n, w') =>
            if n =? len buffer
            then (inr tt, {| vars := vars s; os := holding w' h path [] |})
            else (inl no_space,
                  {| vars := vars s;
                     os := holding w' h path (drop (Z.to_nat n) buffer) |})
        end
    end.

(** [h.write(d)] on the buffered file object that [open] returns.  Bytes
    that fit in the buffer are kept there.  Otherwise the buffer is emptied
    first; then bytes that are more than a buffer are written through,
    until what is left is no more than a buffer, and what is left is kept
    in the buffer. *)
Definition write (h : nat) (d : bytes) : M unit :=
  fun s =>
    let w := os s in
    match open_files w !! h with
    | None => (inl (ValueError "write to closed file"), s)
    | Some (path, buffer) =>
        if len d <=? buffer_size w - len buffer
        then (inr tt, {| vars := vars s; os := holding w h path (buffer ++ d) |})
        else
          match flush h s with
          | (inl e, s') => (inl e, s')
          | (inr _, s') =>
              let w' := os s' in
              if buffer_size w' <? len d then
                match raw_write path d w' with
                | (inl e, _) => (inl e, s')
                | (inr n, w'') =>
                    let rest := drop (Z.to_nat n) d in
                    if buffer_size w'' <? len rest
                    then (inl no_space,
                          {| vars := vars s'; os := holding w'' h path [] |})
                    else (inr tt,
                          {| vars := vars s'; os := holding w'' h path rest |})
                end
              else (inr tt, {| vars := vars s'; os := holding w' h path d |})
          end
    end.

(** [h.close()]: the buffer is emptied and the file object is closed,
    also when emptying the buffer failed; the error is raised after that.
    Closing a closed file object does nothing. *)
Definition close (h : nat) : M unit :=
  fun s =>
    match open_files (os s) !! h with
    | None => (inr tt, s)
    | Some _ =>
        let '(r, s') := flush h s in
        (r, {| vars := vars s'; os := released (os s') h |})
    end.

(** [with mgr as f: body]: [None] is no context manager; a file object is
    bound to [f] and closed when the body is left, however it is left, and
    an error of the closing is raised in place of the body's outcome. *)
Definition with_as {A : Type} (mgr : option nat) (body : M A) : M A :=
  match mgr with
  | None =>
      raise (TypeError "'NoneType' object does not support the context manager protocol")
  | Some h =>
      fun s =>
        let '(r, s') :=
          (do _ <- assign (fun l => {| filename := filename l;
                                       file_path := file_path l;
                                       total_bytes := total_bytes l;
                                       chunks_received := chunks_received l;
                                       f := Some h |});
           body) s in
        match close h s' with
        | (inl e, s'') => (inl e, s'')
        | (inr _, s'') => (r, s'')
        end
  end.

(** The body of [for chunk in request_iterator]; it returns whether the
    loop is left by [break]. *)
Definition receive_chunk (self : FileTransferServicer) (chunk : FileChunk) : M bool :=
  do l <- get;
  do _ <- match filename l with
          | None =>
              let path := Path_join (upload_dir self) (pb2.filename chunk) in
              do _ <- assign (fun l => {| filename := Some (pb2.filename chunk);
                                          file_path := Some path;
                                          total_bytes := total_bytes l;
                                          chunks_received := chunks_received l;
                                          f := f l |});
              do h <- open_wb path;
              assign (fun l => {| filename := filename l;
                                  file_path := file_path l;
                                  total_bytes := total_bytes l;
                                  chunks_received := chunks_received l;
                                  f := Some h |})
          | Some _ => ret tt
          end;
  do l <- get;
  do _ <- match f l with
          | None => raise (AttributeError "'NoneType' object has no attribute 'write'")
          | Some h => write h (data chunk)
          end;
  do _ <- assign (fun l => {| filename := filename l;
                              file_path := file_path l;
                              total_bytes := total_bytes l + len (data chunk);
                              chunks_received := chunks_received l + 1;
                              f := f l |});
  ret (is_last_chunk chunk).

Fixpoint receive_loop (self : FileTransferServicer)
    (request_iterator : list FileChunk) : M unit :=
  match request_iterator with
  | [] => ret tt
  | chunk :: rest =>
      do last <- receive_chunk self chunk;
      if last : bool then ret tt else receive_loop self rest
  end.

(** The body of the [with] statement of [TransferFile]: the loop, then
    [if f: f.close()]. *)
Definition session_body (self : FileTransferServicer)
    (request_iterator : list FileChunk) : M unit :=
  do _ <- receive_loop self request_iterator;
  do l <- get;
  match f l with
  | Some h => close h
  | None => ret tt
  end.

Definition str_option (o : option string) : string :=
  match o with
  | Some s => s
  | None => "None"
  end.

(** The [try] block of [TransferFile]; the clock is read at both ends and
    the two readings are only compared. *)
Definition TransferFile_try (self : FileTransferServicer)
    (request_iterator : list FileChunk) (start_time end_time : Z)
    : M TransferResponse :=
  do l <- get;
  do mgr <- match file_path l with
            | Some p => do h <- open_wb p; ret (Some h)
            | None => ret None
            end;
  do _ <- with_as mgr (session_body self request_iterator);
  do _ <- (if end_time - start_time =? 0
           then raise (ZeroDivisionError "float division by zero")
           else ret tt);
  do l <- get;
  ret {| success := true;
         message := "Archivo " ++ str_option (filename l) ++ " recibido exitosamente";
         bytes_received := total_bytes l |}.

(** The local variables as [TransferFile] sets them before its [try]. *)
Definition initial_locals : locals :=
  {| filename := None; file_path := None; total_bytes := 0;
     chunks_received := 0; f := None |}.

(** [TransferFile(request_iterator, context)]: the response, and the
    machine as the call leaves it. *)
Definition TransferFile (self : FileTransferServicer)
    (request_iterator : list FileChunk) (start_time end_time : Z)
    (w : world) : TransferResponse * world :=
  match TransferFile_try self request_iterator start_time end_time
          {| vars := initial_locals; os := w |} with
  | (inr response, s) => (response, os s)
  | (inl e, s) =>
      ({| success := false;
          message := "Error: " ++ str_exn e;
          bytes_received := total_bytes (vars s) |}, os s)
  end.

(** The digest loop of [GetFileInfo]. *)
Fixpoint md5_loop (fuel : nat) (hash_md5 : hashlib.md5_obj) (f : bytes)
    : result hashlib.md5_obj :=
  match fuel with
  | O => OutOfFuel
  | S fuel' =>
      match io.read f 4096 with
      | inl e => Raise e
      | inr ([], _) => Return hash_md5
      | inr (chunk, f') => md5_loop fuel' (hashlib.update hash_md5 chunk) f'
      end
  end.

(** [GetFileInfo(request, context)] *)
Definition GetFileInfo (self : FileTransferServicer)
    (request : FileInfoRequest) (files : gmap string node)
    : result FileInfoResponse :=
  let file_path := Path_join (upload_dir self) (request_filename request) in
  match files !! file_path with
  | Some nd =>
      let file_size := io.st_size nd in
      match io.open_rb files file_path with
      | inl e => Raise e
      | inr f =>
          match md5_loop (S (length f)) hashlib.md5 f with
          | Return h =>
              Return {| exists_ := true; file_size := file_size;
                        checksum := hashlib.hexdigest h |}
          | Raise e => Raise e
          | OutOfFuel => OutOfFuel
          end
      end
  | None => Return {| exists_ := false; file_size := 0; checksum := "" |}
  end.

End Server.

(** ** What the protocol description says, in its own words *)
Module Spec.
Local Open Scope Z_scope.
Import file_transfer_pb2.

(** [n] consecutive chunks cut every [size] bytes from [f], numbered from
    [k + 1], in a session of [total] chunks. *)
Definition chunks_from (name : string) (size total : Z) (f : bytes)
    (k : Z) (n : nat) : list FileChunk :=
  map (fun i : nat =>
         {| filename := name;
            data := take (Z.to_nat size) (drop (i * Z.to_nat size) f);
            chunk_number := k + Z.of_nat i + 1;
            total_chunks := total;
            is_last_chunk := k + Z.of_nat i + 1 =? total |})
      (seq 0 n).

(** The chunks of a file [content] cut every [size] bytes, [total] of
    them, numbered from 1, the last one flagged. *)
Definition chunks (name : string) (size total : Z) (content : bytes)
    : list FileChunk :=
  chunks_from name size total content 0 (Z.to_nat total).






(** Whether a run of the producer ended in the division of its progress
    line. *)
Definition progress_division_failed (r : Client.gen_run) : bool :=
  match Client.ended r with
  | Client.Raised (ZeroDivisionError msg) => String.eqb msg "division by zero"
  | _ => false
  end.


(** What a chunk shows of its place in the session: its number, the size
    of its data, its last-chunk flag. *)
Definition shape (c : FileChunk) : Z * Z * bool :=
  (chunk_number c, len (data c), is_last_chunk c).

(** The chunks a receive loop takes from a stream: all of them up to the
    first one flagged last, that one included. *)
Fixpoint session (cs : list FileChunk) : list FileChunk :=
  match cs with
  | [] => []
  | c :: rest => if is_last_chunk c then [c] else c :: session rest
  end.

(** Their data, end to end. *)
Definition payload (cs : list FileChunk) : bytes :=
  concat (map data (session cs)).

End Spec.

(** ** Sample inputs *)

Local Open Scope Z_scope.
Import file_transfer_pb2.

Definition ascii_bytes (s : string) : bytes := list_byte_of_string s.

Definition hello_fs : gmap string node :=
  {[ "/tmp/hello.txt"%string := File (ascii_bytes "hello") ]}.

(** A client as [__init__] builds it, with another chunk size. *)
Definition client_with (size : Z) : Client.FileTransferClient :=
  {| Client.server_ip := "127.0.0.1";
     Client.server_port := 50051;
     Client.chunk_size := size |}.

Definition servicer : Server.FileTransferServicer :=
  {| Server.upload_dir := "./uploads" |}.

(** A machine with nothing stored, nothing open and [room] bytes free. *)
Definition empty_world (room : Z) : Server.world :=
  {| Server.fs := ∅;
     Server.open_files := ∅;
     Server.disk_free := room;
     Server.buffer_size := 4096;
     Server.open_refused := ∅ |}.

(** A file of 2,500,000 zero bytes. *)
Definition big_content : bytes := repeat Byte.x00 (Z.to_nat 2500000).

Definition big_fs : gmap string node :=
  {[ "/data/big.bin"%string := File big_content ]}.

(** The response every call of [TransferFile] ends with. *)
Definition failed_response : TransferResponse :=
  {| success := false;
     message := "Error: 'NoneType' object does not support the context manager protocol";
     bytes_received := 0 |}.

(** A chunk numbered 0 of 0, which the codec's contract refuses, and one it
    accepts, with the same name, data and flag. *)
Definition malformed_chunk : FileChunk :=
  {| filename := "a.bin"; data := ascii_bytes "hi";
     chunk_number := 0; total_chunks := 0; is_last_chunk := true |}.

Definition sound_chunk : FileChunk :=
  {| filename := "a.bin"; data := ascii_bytes "hi";
     chunk_number := 1; total_chunks := 1; is_last_chunk := true |}.

(** The stub of a channel to a servicer that holds [files]: the servicer's
    answer, or the error the channel raises when the handler did not
    answer. *)
Definition stub_GetFileInfo (srv : Server.FileTransferServicer)
    (files : gmap string node) (request : FileInfoRequest)
    : exn + FileInfoResponse :=
  match Server.GetFileInfo srv request files with
  | Return response => inr response
  | Raise e => inl (RpcError (str_exn e))
  | OutOfFuel => inl (RpcError "Deadline Exceeded")
  end.

(** The server's copy of the sample file, intact and with one byte changed. *)
Definition stored_fs : gmap string node :=
  {[ "./uploads/hello.txt"%string := File (ascii_bytes "hello") ]}.

Definition corrupted_fs : gmap string node :=
  {[ "./uploads/hello.txt"%string := File (ascii_bytes "hellp") ]}.

(** A machine whose upload directory exists and is empty, and a first chunk
    that carries no file name. *)
Definition uploads_world : Server.world :=
  {| Server.fs := {[ "./uploads"%string := Dir ]};
     Server.open_files := ∅;
     Server.disk_free := 100;
     Server.buffer_size := 4096;
     Server.open_refused := ∅ |}.

(** The same machine with [room] bytes free. *)
Definition uploads_room (room : Z) : Server.world :=
  {| Server.fs := {[ "./uploads"%string := Dir ]};
     Server.open_files := ∅;
     Server.disk_free := room;
     Server.buffer_size := 4096;
     Server.open_refused := ∅ |}.

Definition nameless_chunk : FileChunk :=
  {| filename := ""; data := ascii_bytes "hi";
     chunk_number := 1; total_chunks := 1; is_last_chunk := true |}.


(** The same under the upload directory. *)
Definition stat_zero_fs : gmap string node :=
  {[ "./uploads/version"%string := Special 0 (repeat Byte.x4c 124) ]}.


(** A chunk of 5000 bytes, more than a buffer. *)
Definition large_chunk : FileChunk :=
  {| filename := "a.bin"; data := repeat Byte.x00 5000;
     chunk_number := 1; total_chunks := 1; is_last_chunk := true |}.



(** A channel that hands the servicer every chunk the generator yields and
    brings back its response; [w] is the servicer's machine and [files] its
    files at the time of the calls. *)
Definition loopback (srv : Server.FileTransferServicer) (w : Server.world)
    (server_start server_end : Z) (client : Client.FileTransferClient)
    : Client.channel :=
  {| Client.TransferFile_rpc := fun run =>
       inr (fst (Server.TransferFile srv (Client.yielded run)
                   server_start server_end w));
     Client.GetFileInfo_rpc := stub_GetFileInfo srv (Server.fs w) |}.

(** * Properties *)

(** ** The digest primitive on the vectors of RFC 1321 *)

Example md5_empty :
  hashlib.hexdigest hashlib.md5 = "d41d8cd98f00b204e9800998ecf8427e"%string.
Proof. vm_compute. reflexivity. Qed.

Example md5_abc :
  hashlib.hexdigest (hashlib.update hashlib.md5 (ascii_bytes "abc"))
  = "900150983cd24fb0d6963f7d28e17f72"%string.
Proof. vm_compute. reflexivity. Qed.

Example md5_two_blocks :
  hashlib.hexdigest (hashlib.update hashlib.md5 (repeat Byte.x78 130))
  = "cfc92f41305ca00c9f9584bf67ae1b54"%string.
Proof. vm_compute. reflexivity. Qed.

Example md5_56 :
  hashlib.hexdigest (hashlib.update hashlib.md5 (repeat Byte.x78 56))
  = "668a72d5ba17f08e62dabcafad6db14b"%string.
Proof. vm_compute. reflexivity. Qed.

(** Cutting a message into blocks loses nothing of it. *)
Lemma blocks_of_concat {A : Type} (k : nat) :
  (0 < k)%nat ->
  forall (fuel : nat) (l : list A),
    (length l <= fuel)%nat -> concat (hashlib.blocks_of fuel k l) = l.
Proof.
  intros Hk. induction fuel as [|fuel IH]; intros l Hl.
  - destruct l; [reflexivity | simpl in Hl; lia].
  - destruct l as [|x l]; [reflexivity |].
    cbn [hashlib.blocks_of concat]. rewrite IH.
    + apply take_drop.
    + rewrite length_drop. simpl in Hl |- *. lia.
Qed.

(** ** The last component of a path *)

(** [Path(p).name] on paths with and without separators at the end, empty
    components and components that are a dot. *)
Example Path_name_samples :
  Path_name "/tmp/hello.txt" = "hello.txt"%string
  /\ Path_name "/tmp/hello.txt/" = "hello.txt"%string
  /\ Path_name "a/b/." = "b"%string
  /\ Path_name "a//b" = "b"%string
  /\ Path_name "./x" = "x"%string
  /\ Path_name "a/.." = ".."%string
  /\ Path_name "/" = EmptyString
  /\ Path_name "." = EmptyString
  /\ Path_name EmptyString = EmptyString.
Proof. vm_compute. repeat split. Qed.

(** ** Reading a file piece by piece *)

Lemma len_nonneg {A : Type} (l : list A) : 0 <= len l.
Proof. unfold len. lia. Qed.

Lemma len_app {A : Type} (l k : list A) : len (l ++ k) = len l + len k.
Proof. unfold len. rewrite length_app. lia. Qed.

Lemma read_pos (f : bytes) (n : Z) :
  0 < n -> io.read f n = inr (take (Z.to_nat n) f, drop (Z.to_nat n) f).
Proof.
  intros Hn. unfold io.read.
  destruct (Z.ltb_spec n (-1)); [lia |].
  destruct (Z.eqb_spec n (-1)); [lia | reflexivity].
Qed.

Lemma take_nil_inv {A : Type} (n : nat) (l : list A) :
  (0 < n)%nat -> take n l = [] -> l = [].
Proof. destruct n, l; simpl; intros; (lia || congruence). Qed.

(** ** The chunk producer *)

Lemma yielded_emit_Yield c r :
  Client.yielded (Client.emit (Client.Yield c) r) = c :: Client.yielded r.
Proof. reflexivity. Qed.

Lemma yielded_emit_Progress b s r :
  Client.yielded (Client.emit (Client.Progress b s) r) = Client.yielded r.
Proof. reflexivity. Qed.

Lemma ended_emit ev r : Client.ended (Client.emit ev r) = Client.ended r.
Proof. reflexivity. Qed.

(** Ceiling division, as the producer computes it. *)
Lemma ceil_zero (C : Z) : 0 < C -> (0 + C - 1) / C = 0.
Proof. intros. apply Z.div_small. lia. Qed.

Lemma ceil_pos (L C : Z) : 0 < C -> 0 < L -> 1 <= (L + C - 1) / C.
Proof.
  intros HC HL. apply Z.div_le_lower_bound; lia.
Qed.

Lemma ceil_one (L C : Z) : 0 < C -> 0 < L -> ((L + C - 1) / C = 1 <-> L <= C).
Proof.
  intros HC HL. split; intros H.
  - destruct (Z.le_gt_cases L C) as [|Hgt]; [assumption |].
    assert (2 <= (L + C - 1) / C) by (apply Z.div_le_lower_bound; lia). lia.
  - assert ((L + C - 1) / C < 2) by (apply Z.div_lt_upper_bound; lia).
    pose proof (ceil_pos L C HC HL). lia.
Qed.

Lemma ceil_step (L C : Z) : 0 < C -> (L - C + C - 1) / C = (L + C - 1) / C - 1.
Proof.
  intros HC. replace (L - C + C - 1) with (L + C - 1 + (-1) * C) by lia.
  rewrite Z.div_add by lia. lia.
Qed.

Lemma ceil_bounds (L C : Z) :
  0 < C -> ((L + C - 1) / C - 1) * C < L <= (L + C - 1) / C * C.
Proof.
  intros HC.
  pose proof (Z.div_mod (L + C - 1) C ltac:(lia)) as Hdm.
  pose proof (Z.mod_pos_bound (L + C - 1) C HC). nia.
Qed.

Lemma chunks_from_cons name size total (f : bytes) k n :
  Spec.chunks_from name size total f k (S n)
  = {| filename := name;
       data := take (Z.to_nat size) f;
       chunk_number := k + 1;
       total_chunks := total;
       is_last_chunk := k + 1 =? total |}
    :: Spec.chunks_from name size total (drop (Z.to_nat size) f) (k + 1) n.
Proof.
  unfold Spec.chunks_from.
  rewrite <- cons_seq, <- seq_shift. cbn [map].
  rewrite Nat.mul_0_l, drop_0, Z.add_0_r, map_map.
  f_equal. apply map_ext. intros i.
  rewrite drop_drop.
  replace (Z.to_nat size + i * Z.to_nat size)%nat with (S i * Z.to_nat size)%nat by lia.
  replace (k + 1 + Z.of_nat i + 1) with (k + Z.of_nat (S i) + 1) by lia.
  reflexivity.
Qed.

(** The loop, started on what is left of the file after [k] chunks, hands
    out the remaining chunks and stops; the progress line divides by a
    positive size whenever there is something left to read. *)
Lemma chunk_loop_spec (self : Client.FileTransferClient) name fsize total :
  0 < Client.chunk_size self ->
  forall (fuel : nat) (f : bytes) (k b : Z),
    (length f < fuel)%nat ->
    len f <= fsize ->
    total = k + (len f + Client.chunk_size self - 1) / Client.chunk_size self ->
    let run := Client.chunk_loop fuel self name fsize total f k b in
    Client.ended run = Client.StopIteration
    /\ Client.yielded run
       = Spec.chunks_from name (Client.chunk_size self) total f k
           (Z.to_nat (total - k)).
Proof.
  intros HC. set (C := Client.chunk_size self) in *.
  induction fuel as [|fuel IH]; intros f k b Hfuel Hsize Htotal; [lia |].
  cbn [Client.chunk_loop]. fold C. rewrite read_pos by assumption.
  destruct (take (Z.to_nat C) f) as [|x chunk] eqn:Hchunk.
  - apply take_nil_inv in Hchunk; [| lia]. subst f.
    change (len (@nil Byte.byte)) with 0 in Htotal.
    rewrite ceil_zero in Htotal by assumption.
    replace (total - k) with 0 by lia. split; reflexivity.
  - rewrite <- Hchunk.
    assert (Hf : 0 < len f).
    { unfold len. destruct f; [destruct (Z.to_nat C); discriminate | simpl; lia]. }
    pose proof (ceil_pos (len f) C HC Hf) as Hn.
    assert (Hprog : forall next,
      Client.ended (if (k + 1) mod 100 =? 0
                    then if fsize =? 0
                         then Client.stop (Client.Raised (ZeroDivisionError "division by zero"))
                         else Client.emit (Client.Progress (b + len (take (Z.to_nat C) f)) fsize) next
                    else next) = Client.ended next
      /\ Client.yielded (if (k + 1) mod 100 =? 0
                    then if fsize =? 0
                         then Client.stop (Client.Raised (ZeroDivisionError "division by zero"))
                         else Client.emit (Client.Progress (b + len (take (Z.to_nat C) f)) fsize) next
                    else next) = Client.yielded next).
    { intros next. destruct ((k + 1) mod 100 =? 0); [| split; reflexivity].
      destruct (Z.eqb_spec fsize 0); [lia | split; reflexivity]. }
    rewrite ended_emit, yielded_emit_Yield.
    destruct (Hprog (if k + 1 =? total then Client.stop Client.StopIteration
                     else Client.chunk_loop fuel self name fsize total
                            (drop (Z.to_nat C) f) (k + 1)
                            (b + len (take (Z.to_nat C) f)))) as [-> ->].
    replace (Z.to_nat (total - k)) with (S (Z.to_nat (total - (k + 1)))) by lia.
    rewrite chunks_from_cons.
    destruct (Z.eqb_spec (k + 1) total) as [Hlast | Hmore].
    + split; [reflexivity |].
      replace (total - (k + 1)) with 0 by lia. reflexivity.
    + assert (Hlen : len (drop (Z.to_nat C) f) = len f - C).
      { assert (C < len f).
        { destruct (Z.le_gt_cases (len f) C) as [Hle|]; [| lia].
          apply (ceil_one (len f) C HC Hf) in Hle. lia. }
        unfold len in *. rewrite length_drop. lia. }
      destruct (IH (drop (Z.to_nat C) f) (k + 1) (b + len (take (Z.to_nat C) f)))
        as [Hend Hyield].
      * unfold len in Hlen. lia.
      * lia.
      * rewrite Hlen, ceil_step by assumption. lia.
      * split; [exact Hend |]. rewrite Hyield. reflexivity.
Qed.

(** On a regular file and with a positive chunk size the generator hands
    out the chunks of the description and stops. *)
Lemma generate_spec (self : Client.FileTransferClient)
    (fs : gmap string node) (path : string) (content : bytes) :
  0 < Client.chunk_size self ->
  fs !! path = Some (File content) ->
  let total :=
    (len content + Client.chunk_size self - 1) / Client.chunk_size self in
  let run := Client._generate_file_chunks self fs path in
  Client.ended run = Client.StopIteration
  /\ Client.yielded run
     = Spec.chunks (Path_name path) (Client.chunk_size self) total content.
Proof.
  intros HC Hfile total run. subst run.
  unfold Client._generate_file_chunks, Client.count_chunks, io.open_rb.
  rewrite Hfile. cbn [io.st_size].
  destruct (Z.eqb_spec (Client.chunk_size self) 0); [lia |].
  fold total. unfold Spec.chunks.
  replace (Z.to_nat total) with (Z.to_nat (total - 0)) by (f_equal; lia).
  apply chunk_loop_spec; [assumption | lia | lia | subst total; lia].
Qed.

Lemma chunks_from_length name size total (f : bytes) k n :
  length (Spec.chunks_from name size total f k n) = n.
Proof. unfold Spec.chunks_from. rewrite length_map. apply length_seq. Qed.

Lemma chunks_from_lookup name size total (f : bytes) k n (i : nat) c :
  Spec.chunks_from name size total f k n !! i = Some c ->
  (i < n)%nat
  /\ c = {| filename := name;
            data := take (Z.to_nat size) (drop (i * Z.to_nat size) f);
            chunk_number := k + Z.of_nat i + 1;
            total_chunks := total;
            is_last_chunk := k + Z.of_nat i + 1 =? total |}.
Proof.
  unfold Spec.chunks_from. intros H.
  rewrite list_lookup_fmap in H.
  destruct (seq 0 n !! i) as [j|] eqn:Hj; [| discriminate].
  apply lookup_seq in Hj as [-> Hlt]. simpl in H.
  split; [assumption | congruence].
Qed.

Lemma len_piece (content : bytes) (c i : nat) :
  Z.of_nat i * Z.of_nat c <= len content ->
  len (take c (drop (i * c) content))
  = Z.min (Z.of_nat c) (len content - Z.of_nat i * Z.of_nat c).
Proof. unfold len. rewrite length_take, length_drop. lia. Qed.

(** The size of the piece cut at position [i]. *)
Lemma piece_size (content : bytes) (C : Z) (i : nat) :
  0 < C ->
  Z.of_nat i < (len content + C - 1) / C ->
  len (take (Z.to_nat C) (drop (i * Z.to_nat C) content))
  = if Z.of_nat i + 1 <? (len content + C - 1) / C then C
    else if len content mod C =? 0 then C else len content mod C.
Proof.
  intros HC Hi. set (n := (len content + C - 1) / C) in *.
  pose proof (ceil_bounds (len content) C HC) as Hb. fold n in Hb.
  assert (Hlen : len (take (Z.to_nat C) (drop (i * Z.to_nat C) content))
                 = Z.min C (len content - Z.of_nat i * C)).
  { rewrite len_piece; rewrite Z2Nat.id by lia; [reflexivity | nia]. }
  rewrite Hlen.
  destruct (Z.ltb_spec (Z.of_nat i + 1) n) as [Hlt | Hge].
  - nia.
  - assert (Z.of_nat i = n - 1) as -> by lia.
    destruct (Z.eqb_spec (len content mod C) 0) as [Hz | Hnz].
    + apply Z.mod_divide in Hz; [| lia]. destruct Hz as [q Hq].
      rewrite Hq in Hb |- *.
      assert (n - 1 < q) by (apply (Z.mul_lt_mono_pos_r C); lia).
      assert (q <= n) by (apply (Z.mul_le_mono_pos_r _ _ C); lia).
      replace q with n by lia. lia.
    + pose proof (Z.div_mod (len content) C ltac:(lia)) as Hdm.
      pose proof (Z.mod_pos_bound (len content) C HC) as Hm.
      set (d := len content / C) in *. set (m := len content mod C) in *.
      assert (n - 1 < d + 1) by (apply (Z.mul_lt_mono_pos_r C); lia).
      assert (d < n) by (apply (Z.mul_lt_mono_pos_r C); lia).
      replace (n - 1) with d by lia. lia.
Qed.

(** C5. For a file of size S > 0 and a chunk size C > 0 the producer stops
    after handing out exactly ceil(S/C) chunks, numbered 1, 2, ... in
    order; each carries the same total_chunks = ceil(S/C); every chunk but
    the last has C bytes of data and the last has S mod C bytes, or C when C
    divides S; the last-chunk flag is set on the last chunk only. *)
Theorem producer_chunk_count (self : Client.FileTransferClient)
    (fs : gmap string node) (path : string) (content : bytes) :
  0 < len content ->
  0 < Client.chunk_size self ->
  fs !! path = Some (File content) ->
  let S := len content in
  let C := Client.chunk_size self in
  let n := (S + C - 1) / C in
  let run := Client._generate_file_chunks self fs path in
  (n - 1) * C < S <= n * C
  /\ Client.count_chunks self S = inr n
  /\ Client.ended run = Client.StopIteration
  /\ len (Client.yielded run) = n
  /\ forall (i : nat) (c : FileChunk),
       Client.yielded run !! i = Some c ->
       chunk_number c = Z.of_nat i + 1
       /\ total_chunks c = n
       /\ len (data c)
          = (if Z.of_nat i + 1 <? n then C
             else if S mod C =? 0 then C else S mod C)
       /\ is_last_chunk c = (Z.of_nat i + 1 =? n).
Proof.
  intros HS HC Hfile S C n run.
  destruct (generate_spec self fs path content HC Hfile) as [Hend Hyield].
  fold C S n run in Hend, Hyield.
  pose proof (ceil_pos S C HC HS) as Hn. fold n in Hn.
  split; [apply ceil_bounds; assumption |].
  split.
  { unfold Client.count_chunks. fold C.
    destruct (Z.eqb_spec C 0); [lia | reflexivity]. }
  split; [assumption |].
  rewrite Hyield. unfold Spec.chunks.
  split.
  - unfold len. rewrite chunks_from_length. lia.
  - intros i c Hc. apply chunks_from_lookup in Hc as [Hi ->].
    cbn [chunk_number total_chunks data is_last_chunk].
    split; [lia |]. split; [reflexivity |].
    split; [apply piece_size; [assumption | fold S n; lia] |].
    reflexivity.
Qed.

Lemma producer_chunk_count_witness :
  let run := Client._generate_file_chunks (client_with 2) hello_fs "/tmp/hello.txt" in
  (3 - 1) * 2 < 5 <= 3 * 2
  /\ Client.count_chunks (client_with 2) 5 = inr 3
  /\ Client.ended run = Client.StopIteration
  /\ len (Client.yielded run) = 3
  /\ forall (i : nat) (c : FileChunk),
       Client.yielded run !! i = Some c ->
       chunk_number c = Z.of_nat i + 1
       /\ total_chunks c = 3
       /\ len (data c)
          = (if Z.of_nat i + 1 <? 3 then 2
             else if 5 mod 2 =? 0 then 2 else 5 mod 2)
       /\ is_last_chunk c = (Z.of_nat i + 1 =? 3).
Proof.
  apply (producer_chunk_count (client_with 2) hello_fs "/tmp/hello.txt"
           (ascii_bytes "hello")).
  - reflexivity.
  - reflexivity.
  - reflexivity.
Defined.

Example producer_hello :
  map Spec.shape
      (Client.yielded
         (Client._generate_file_chunks (client_with 2) hello_fs "/tmp/hello.txt"))
  = [(1, 2, false); (2, 2, false); (3, 1, true)].
Proof. vm_compute. reflexivity. Qed.

(** ** The receiver *)

(** [with None as f] raises before its body runs, whatever the body is. *)
Lemma with_as_None {A : Type} (body : Server.M A) (s : Server.state) :
  Server.with_as None body s
  = (inl (TypeError "'NoneType' object does not support the context manager protocol"), s).
Proof. reflexivity. Qed.

(** The [try] block: [file_path] is still [None], so the expression of the
    [with] statement is [None] and the block ends there. *)
Lemma TransferFile_try_raises (self : Server.FileTransferServicer)
    (request_iterator : list FileChunk) (start_time end_time : Z)
    (w : Server.world) :
  Server.TransferFile_try self request_iterator start_time end_time
    {| Server.vars := Server.initial_locals; Server.os := w |}
  = (inl (TypeError "'NoneType' object does not support the context manager protocol"),
     {| Server.vars := Server.initial_locals; Server.os := w |}).
Proof.
  unfold Server.TransferFile_try, Server.bind at 1. cbn [Server.get Server.vars].
  unfold Server.bind at 1.
  cbn [Server.file_path Server.initial_locals Server.ret].
  unfold Server.bind at 1. rewrite with_as_None. reflexivity.
Qed.

(** The call ends in the handler, with the machine untouched. *)
Lemma TransferFile_result (self : Server.FileTransferServicer)
    (request_iterator : list FileChunk) (start_time end_time : Z)
    (w : Server.world) :
  Server.TransferFile self request_iterator start_time end_time w
  = (failed_response, w).
Proof.
  unfold Server.TransferFile. rewrite TransferFile_try_raises. reflexivity.
Qed.

(** C2. Whatever the incoming chunks are, TransferFile answers
    success=false with bytes_received=0 and leaves the machine as it found
    it: the context-manager expression is None, so the [with] statement
    raises before the loop takes a chunk, and the handler turns the
    exception into the failed response. *)
Theorem TransferFile_always_fails (self : Server.FileTransferServicer)
    (request_iterator : list FileChunk) (start_time end_time : Z)
    (w : Server.world) :
  Server.TransferFile_try self request_iterator start_time end_time
    {| Server.vars := Server.initial_locals; Server.os := w |}
  = (inl (TypeError "'NoneType' object does not support the context manager protocol"),
     {| Server.vars := Server.initial_locals; Server.os := w |})
  /\ Server.TransferFile self request_iterator start_time end_time w
     = (failed_response, w)
  /\ success failed_response = false
  /\ bytes_received failed_response = 0.
Proof.
  split; [apply TransferFile_try_raises |].
  split; [apply TransferFile_result |].
  split; reflexivity.
Qed.

(** The [with] statement of [TransferFile] has [session_body] for body. *)
Lemma TransferFile_try_body (self : Server.FileTransferServicer)
    (request_iterator : list FileChunk) (start_time end_time : Z)
    (s : Server.state) :
  Server.file_path (Server.vars s) = None ->
  Server.TransferFile_try self request_iterator start_time end_time s
  = Server.bind (Server.with_as None (Server.session_body self request_iterator))
      (fun _ =>
         Server.bind
           (if end_time - start_time =? 0
            then Server.raise (ZeroDivisionError "float division by zero")
            else Server.ret tt)
           (fun _ =>
              Server.bind Server.get
                (fun l =>
                   Server.ret
                     {| success := true;
                        message := "Archivo " ++ Server.str_option (Server.filename l)
                                   ++ " recibido exitosamente";
                        bytes_received := Server.total_bytes l |}))) s.
Proof.
  intros Hpath. unfold Server.TransferFile_try, Server.bind at 1.
  cbn [Server.get]. rewrite Hpath. reflexivity.
Qed.

(** A closed file object is not among the open ones. *)
Lemma close_releases (h : nat) (s : Server.state) :
  Server.open_files (Server.os (snd (Server.close h s))) !! h = None.
Proof.
  unfold Server.close.
  destruct (Server.open_files (Server.os s) !! h) as [o |] eqn:Hopen; [| exact Hopen].
  destruct (Server.flush h s) as [r s']. cbn. apply lookup_delete_eq.
Qed.

(** A file object bound by [with] is closed when the body is left, by a
    value or by an exception. *)
Lemma with_as_closes {A : Type} (h : nat) (body : Server.M A) (s : Server.state) :
  Server.open_files (Server.os (snd (Server.with_as (Some h) body s))) !! h = None.
Proof.
  unfold Server.with_as.
  destruct (Server.bind _ _ s) as [r s'].
  pose proof (close_releases h s') as Hclosed.
  destruct (Server.close h s') as [[e | u] s'']; exact Hclosed.
Qed.


(** The loop, run by itself on a disk with room: the data is with the file
    object and on the disk, and on the disk once the body has closed the
    file object. *)
Example session_body_stores :
  let chunks :=
    Client.yielded
      (Client._generate_file_chunks (client_with 2) hello_fs "/tmp/hello.txt") in
  let '(r, s) :=
    Server.session_body servicer chunks
      {| Server.vars := Server.initial_locals; Server.os := uploads_world |} in
  r = inr tt
  /\ Server.fs (Server.os s) !! "./uploads/hello.txt"%string
     = Some (File (ascii_bytes "hello"))
  /\ Server.open_files (Server.os s) = ∅
  /\ Server.total_bytes (Server.vars s) = 5
  /\ Server.chunks_received (Server.vars s) = 3.
Proof. vm_compute. repeat split. Qed.

(** A small chunk on a full disk stays in the buffer: the loop counts it
    and ends normally, and it is the closing that raises. *)
Example small_chunk_on_full_disk :
  let s0 := {| Server.vars := Server.initial_locals; Server.os := uploads_room 0 |} in
  fst (Server.receive_loop servicer [sound_chunk] s0) = inr tt
  /\ Server.total_bytes (Server.vars (snd (Server.receive_loop servicer [sound_chunk] s0)))
     = 2
  /\ fst (Server.session_body servicer [sound_chunk] s0) = inl Server.no_space
  /\ Server.open_files (Server.os (snd (Server.session_body servicer [sound_chunk] s0)))
     = ∅.
Proof. vm_compute. repeat split. Qed.

(** A chunk larger than the buffer on a disk too small for it is written in
    part, the write raises, and the loop is left with the file object it
    opened still open. *)
Example large_chunk_on_small_disk :
  let s0 := {| Server.vars := Server.initial_locals; Server.os := uploads_room 100 |} in
  let '(r, s) := Server.session_body servicer [large_chunk] s0 in
  r = inl Server.no_space
  /\ Server.fs (Server.os s) !! "./uploads/a.bin"%string
     = Some (File (repeat Byte.x00 100))
  /\ Server.open_files (Server.os s) !! 0%nat = Some ("./uploads/a.bin"%string, [])
  /\ Server.total_bytes (Server.vars s) = 0.
Proof. vm_compute. repeat split. Qed.

(** ** The scenario of a 2,500,000-byte file *)

(** C1. For a file of 2,500,000 bytes and a chunk size of 1,000,000 the
    producer hands out chunks 1, 2, 3 with 1,000,000, 1,000,000 and 500,000
    bytes, the last-chunk flag set on chunk 3 only, and stops; TransferFile,
    given these chunks, answers success=false with bytes_received=0. *)
Theorem scenario_2500000 (self : Client.FileTransferClient)
    (srv : Server.FileTransferServicer)
    (fs : gmap string node) (path : string) (content : bytes)
    (start_time end_time : Z) (w : Server.world) :
  Client.chunk_size self = 1000000 ->
  len content = 2500000 ->
  fs !! path = Some (File content) ->
  let run := Client._generate_file_chunks self fs path in
  Client.ended run = Client.StopIteration
  /\ map Spec.shape (Client.yielded run)
     = [(1, 1000000, false); (2, 1000000, false); (3, 500000, true)]
  /\ map total_chunks (Client.yielded run) = [3; 3; 3]
  /\ Server.TransferFile srv (Client.yielded run) start_time end_time w
     = (failed_response, w).
Proof.
  intros HC HS Hfile run.
  destruct (generate_spec self fs path content ltac:(lia) Hfile) as [Hend Hyield].
  fold run in Hend, Hyield.
  split; [assumption |].
  split; [| split; [| apply TransferFile_result]].
  - rewrite Hyield, HC, HS.
    change ((2500000 + 1000000 - 1) / 1000000) with 3.
    unfold Spec.chunks, Spec.chunks_from.
    change (Z.to_nat 3) with 3%nat. cbn [seq map].
    unfold Spec.shape. cbn [chunk_number data is_last_chunk].
    rewrite !len_piece; rewrite ?Z2Nat.id, ?HS; try lia.
    reflexivity.
  - rewrite Hyield, HC, HS.
    change ((2500000 + 1000000 - 1) / 1000000) with 3.
    reflexivity.
Qed.

Lemma scenario_2500000_witness :
  let run := Client._generate_file_chunks (client_with 1000000) big_fs "/data/big.bin" in
  len big_content = 2500000
  /\ Client.ended run = Client.StopIteration
  /\ map Spec.shape (Client.yielded run)
     = [(1, 1000000, false); (2, 1000000, false); (3, 500000, true)]
  /\ map total_chunks (Client.yielded run) = [3; 3; 3]
  /\ Server.TransferFile servicer (Client.yielded run) 0 1 (empty_world 3000000)
     = (failed_response, empty_world 3000000).
Proof.
  assert (Hlen : len big_content = 2500000).
  { unfold len, big_content. rewrite repeat_length. lia. }
  split; [exact Hlen |].
  apply (scenario_2500000 (client_with 1000000) servicer big_fs "/data/big.bin"
           big_content 0 1 (empty_world 3000000)).
  - reflexivity.
  - exact Hlen.
  - apply lookup_singleton_eq.
Defined.

(** ** The empty file *)

(** C6. For a 0-byte file and a positive chunk size the producer computes
    total_chunks = 0 and stops without handing out a chunk; TransferFile,
    given no chunk, answers success=false with bytes_received=0 and opens
    no file. *)
Theorem zero_byte_file (self : Client.FileTransferClient)
    (srv : Server.FileTransferServicer)
    (fs : gmap string node) (path : string)
    (start_time end_time : Z) (w : Server.world) :
  0 < Client.chunk_size self ->
  fs !! path = Some (File []) ->
  let run := Client._generate_file_chunks self fs path in
  Client.count_chunks self 0 = inr 0
  /\ Client.events run = []
  /\ Client.ended run = Client.StopIteration
  /\ Server.TransferFile srv (Client.yielded run) start_time end_time w
     = (failed_response, w).
Proof.
  intros HC Hfile run.
  assert (Hcount : Client.count_chunks self 0 = inr 0).
  { unfold Client.count_chunks.
    destruct (Z.eqb_spec (Client.chunk_size self) 0); [lia |].
    rewrite ceil_zero by assumption. reflexivity. }
  assert (Hrun : run = Client.stop Client.StopIteration).
  { subst run. unfold Client._generate_file_chunks, io.open_rb.
    rewrite Hfile. cbn [io.st_size]. change (len (@nil Byte.byte)) with 0.
    rewrite Hcount. cbn [length Client.chunk_loop].
    rewrite read_pos by assumption. rewrite take_nil. reflexivity. }
  rewrite Hrun. split; [assumption |].
  split; [reflexivity |]. split; [reflexivity |].
  apply TransferFile_result.
Qed.

Lemma zero_byte_file_witness :
  let fs : gmap string node := {[ "/tmp/empty"%string := File [] ]} in
  let run := Client._generate_file_chunks (Client.__init__ "127.0.0.1" 50051) fs "/tmp/empty" in
  Client.count_chunks (Client.__init__ "127.0.0.1" 50051) 0 = inr 0
  /\ Client.events run = []
  /\ Client.ended run = Client.StopIteration
  /\ Server.TransferFile servicer (Client.yielded run) 0 1 (empty_world 100)
     = (failed_response, empty_world 100).
Proof.
  apply (zero_byte_file (Client.__init__ "127.0.0.1" 50051) servicer
           {[ "/tmp/empty"%string := File [] ]} "/tmp/empty" 0 1 (empty_world 100)).
  - reflexivity.
  - reflexivity.
Defined.

(** ** The progress line of the producer *)

Lemma read_shorter (f chunk f' : bytes) (n : Z) :
  io.read f n = inr (chunk, f') -> len chunk <= len f /\ len f' <= len f.
Proof.
  unfold io.read, len.
  destruct (n <? -1); [discriminate |].
  destruct (n =? -1); intros [= <- <-].
  - simpl. lia.
  - rewrite length_take, length_drop. lia.
Qed.


(** With a size of 0 taken from [stat] the number of chunks is 0 and no
    chunk is ever the last one: if the file has more than 99 chunks to read,
    the loop hands out a hundred chunks and ends in the division. *)
Lemma chunk_loop_stat_zero (self : Client.FileTransferClient) name :
  0 < Client.chunk_size self ->
  forall (fuel : nat) (f : bytes) (k b : Z),
    0 <= k < 100 ->
    (99 - k) * Client.chunk_size self < len f ->
    (length f < fuel)%nat ->
    let run := Client.chunk_loop fuel self name 0 0 f k b in
    Client.ended run = Client.Raised (ZeroDivisionError "division by zero")
    /\ len (Client.yielded run) = 100 - k.
Proof.
  intros HC. induction fuel as [|fuel IH]; intros f k b Hk Hlen Hfuel; [lia |].
  cbn [Client.chunk_loop]. rewrite read_pos by assumption.
  assert (Hf : 0 < len f) by nia.
  destruct (take (Z.to_nat (Client.chunk_size self)) f) as [|x chunk] eqn:Hchunk.
  { apply (f_equal (@length _)) in Hchunk. rewrite length_take in Hchunk.
    unfold len in Hf. simpl in Hchunk. lia. }
  destruct (Z.eqb_spec (k + 1) 0) as [Hz | _]; [lia |].
  destruct (Z.eq_dec k 99) as [-> | Hk99].
  - change ((99 + 1) mod 100 =? 0) with true. cbn [Z.eqb].
    split; reflexivity.
  - assert (Hmod : ((k + 1) mod 100 =? 0) = false).
    { rewrite Z.mod_small by lia. apply Z.eqb_neq. lia. }
    rewrite Hmod.
    assert (Hdrop : len (drop (Z.to_nat (Client.chunk_size self)) f)
                    = len f - Client.chunk_size self).
    { assert (Hone : Client.chunk_size self <= (99 - k) * Client.chunk_size self)
        by nia.
      unfold len in *. rewrite length_drop. lia. }
    assert (Hfuel' : (length (drop (Z.to_nat (Client.chunk_size self)) f) < fuel)%nat)
      by (rewrite length_drop; unfold len in Hf; lia).
    assert (Hlen' : (99 - (k + 1)) * Client.chunk_size self
                    < len (drop (Z.to_nat (Client.chunk_size self)) f))
      by (rewrite Hdrop; nia).
    destruct (IH (drop (Z.to_nat (Client.chunk_size self)) f) (k + 1)
                (b + len (x :: chunk)) ltac:(lia) Hlen' Hfuel') as [IHend IHlen].
    split; [rewrite ended_emit; exact IHend |].
    rewrite yielded_emit_Yield. unfold len in IHlen |- *. cbn [length] in IHlen |- *.
    rewrite Nat2Z.inj_succ, IHlen. lia.
Qed.



(** Whatever the chunk size, a path for which [stat] reports 0 bytes and
    from which more than 99 chunks can be read has a hundred chunks handed
    out and then the division by zero. *)
Lemma progress_division_fails_on_stat_zero (self : Client.FileTransferClient)
    (fs : gmap string node) (path : string) (content : bytes) :
  fs !! path = Some (Special 0 content) ->
  0 < Client.chunk_size self ->
  99 * Client.chunk_size self < len content ->
  let run := Client._generate_file_chunks self fs path in
  Spec.progress_division_failed run = true
  /\ len (Client.yielded run) = 100.
Proof.
  intros Hfile HC Hlen run. subst run. unfold Client._generate_file_chunks.
  rewrite Hfile. unfold Client.count_chunks.
  destruct (Z.eqb_spec (Client.chunk_size self) 0); [lia |].
  unfold io.open_rb. rewrite Hfile. cbn [io.st_size].
  replace ((0 + Client.chunk_size self - 1) / Client.chunk_size self) with 0
    by (symmetry; apply Z.div_small; lia).
  destruct (chunk_loop_stat_zero self (Path_name path) HC (S (length content))
              content 0 0 ltac:(lia) ltac:(lia) ltac:(lia)) as [Hend Hyield].
  split; [| exact Hyield].
  unfold Spec.progress_division_failed. rewrite Hend. reflexivity.
Qed.


(** The generator always ends within the iterations it is given. *)
Lemma chunk_loop_finishes (self : Client.FileTransferClient) name fsize total :
  forall (fuel : nat) (f : bytes) (k b : Z),
    Client.chunk_size self <> 0 ->
    (length f < fuel)%nat ->
    Client.ended (Client.chunk_loop fuel self name fsize total f k b)
    <> Client.Unfinished.
Proof.
  induction fuel as [|fuel IH]; intros f k b HC Hfuel; [lia |].
  cbn [Client.chunk_loop].
  destruct (io.read f (Client.chunk_size self)) as [e | [chunk f']] eqn:Hread;
    [discriminate |].
  destruct chunk as [|x chunk]; [discriminate |].
  assert (Hlt : (length f' < fuel)%nat).
  { unfold io.read in Hread.
    destruct (Client.chunk_size self <? -1); [discriminate |].
    destruct (Z.eqb_spec (Client.chunk_size self) (-1)); injection Hread as Hc <-.
    - subst f. simpl in Hfuel |- *. lia.
    - rewrite length_drop.
      assert (length (take (Z.to_nat (Client.chunk_size self)) f) <> 0)%nat
        by (rewrite Hc; discriminate).
      rewrite length_take in *. lia. }
  rewrite ended_emit.
  assert (Hnext : Client.ended
            (if k + 1 =? total then Client.stop Client.StopIteration
             else Client.chunk_loop fuel self name fsize total f' (k + 1)
                    (b + len (x :: chunk))) <> Client.Unfinished).
  { destruct (k + 1 =? total); [discriminate | apply IH; assumption]. }
  destruct ((k + 1) mod 100 =? 0); [| exact Hnext].
  destruct (fsize =? 0); [discriminate | exact Hnext].
Qed.

Lemma generate_finishes (self : Client.FileTransferClient)
    (fs : gmap string node) (path : string) :
  Client.ended (Client._generate_file_chunks self fs path) <> Client.Unfinished.
Proof.
  unfold Client._generate_file_chunks.
  destruct (fs !! path) as [nd |]; [| discriminate].
  unfold Client.count_chunks.
  destruct (Z.eqb_spec (Client.chunk_size self) 0); [discriminate |].
  destruct (io.open_rb fs path); [discriminate |].
  apply chunk_loop_finishes; [assumption | lia].
Qed.

(** ** No chunk validation in the receiver *)



Lemma drop_len (d : bytes) : drop (Z.to_nat (len d)) d = [].
Proof. unfold len. rewrite Nat2Z.id. apply drop_all. Qed.

(** A write of the unbuffered file that the disk has room for. *)
Lemma raw_write_room (path : string) (d : bytes) (w : Server.world) :
  0 < len d <= Server.disk_free w ->
  Server.raw_write path d w
  = (inr (len d),
     Server.on_disk w path (Server.stored w path ++ d) (Server.disk_free w - len d)).
Proof.
  intros Hroom. unfold Server.raw_write.
  destruct (Z.leb_spec (Server.disk_free w) 0); [lia |].
  rewrite Z.min_l by lia. unfold len at 2. rewrite Nat2Z.id.
  rewrite take_ge by lia. reflexivity.
Qed.

(** A file object that holds [buffer] over [disk] bytes stored, on a disk
    with room for the buffer: emptying the buffer stores it. *)
Lemma flush_room (w0 : Server.world) (path : string) (h : nat) (l : Server.locals)
    (disk buffer : bytes) (free : Z) :
  len buffer <= free ->
  Server.flush h
    {| Server.vars := l;
       Server.os := Server.holding (Server.on_disk w0 path disk free) h path buffer |}
  = (inr tt,
     {| Server.vars := l;
        Server.os := Server.holding
                       (Server.on_disk w0 path (disk ++ buffer) (free - len buffer))
                       h path [] |}).
Proof.
  intros Hroom. unfold Server.flush.
  cbn [Server.os Server.vars Server.holding Server.open_files]. rewrite lookup_insert_eq.
  destruct buffer as [|x buffer].
  - rewrite app_nil_r. change (len []) with 0. rewrite Z.sub_0_r. reflexivity.
  - rewrite raw_write_room
      by (unfold len in *;
          cbn [length Server.disk_free Server.on_disk Server.holding] in *; lia).
    rewrite Z.eqb_refl. unfold Server.stored, Server.holding, Server.on_disk. cbn.
    rewrite lookup_insert_eq, !insert_insert_eq. reflexivity.
Qed.

(** On a disk with room also for what it is given, the write returns, and
    the bytes are after those the file object had, stored or held. *)
Lemma write_room (w0 : Server.world) (path : string) (h : nat) (l : Server.locals)
    (disk buffer d : bytes) (free : Z) :
  0 < Server.buffer_size w0 ->
  len buffer + len d <= free ->
  exists (disk' buffer' : bytes) (free' : Z),
    Server.write h d
      {| Server.vars := l;
         Server.os := Server.holding (Server.on_disk w0 path disk free) h path buffer |}
    = (inr tt,
       {| Server.vars := l;
          Server.os := Server.holding (Server.on_disk w0 path disk' free') h path buffer' |})
    /\ disk' ++ buffer' = disk ++ buffer ++ d
    /\ free' + len disk' = free + len disk.
Proof.
  intros HB Hroom. pose proof (len_nonneg d) as Hd. unfold Server.write.
  cbn [Server.os Server.vars Server.holding Server.open_files Server.buffer_size
       Server.on_disk].
  rewrite lookup_insert_eq.
  destruct (Z.leb_spec (len d) (Server.buffer_size w0 - len buffer)) as [Hfit | Hbig].
  { exists disk, (buffer ++ d), free. split; [| split; [reflexivity | lia]].
    unfold Server.holding, Server.on_disk. cbn. rewrite insert_insert_eq. reflexivity. }
  rewrite flush_room by lia.
  cbn [Server.os Server.vars Server.holding Server.buffer_size Server.on_disk].
  destruct (Z.ltb_spec (Server.buffer_size w0) (len d)) as [Hthrough | Hkeep].
  - rewrite raw_write_room by (cbn; lia).
    rewrite drop_len. change (len []) with 0.
    cbn [Server.buffer_size Server.on_disk Server.holding].
    destruct (Z.ltb_spec (Server.buffer_size w0) 0); [lia |].
    exists ((disk ++ buffer) ++ d), [], (free - len buffer - len d).
    split; [| split].
    + unfold Server.stored, Server.holding, Server.on_disk. cbn.
      rewrite lookup_insert_eq, !insert_insert_eq. reflexivity.
    + rewrite app_nil_r, <- app_assoc. reflexivity.
    + unfold len. rewrite !length_app. lia.
  - exists (disk ++ buffer), d, (free - len buffer). split; [| split].
    + unfold Server.holding, Server.on_disk. cbn. rewrite insert_insert_eq. reflexivity.
    + rewrite <- app_assoc. reflexivity.
    + unfold len. rewrite !length_app. lia.
Qed.






(** The loop of TransferFile, run by itself on the same two streams, stores
    the data of the malformed chunk as it stores the data of the other. *)
Example malformed_chunk_stored_by_loop :
  let s0 := {| Server.vars := Server.initial_locals; Server.os := uploads_world |} in
  Server.session_body servicer [malformed_chunk] s0
  = Server.session_body servicer [sound_chunk] s0
  /\ fst (Server.session_body servicer [malformed_chunk] s0) = inr tt
  /\ Server.fs (Server.os (snd (Server.session_body servicer [malformed_chunk] s0)))
       !! "./uploads/a.bin"%string
     = Some (File (data malformed_chunk)).
Proof. vm_compute. repeat split. Qed.

(** ** Digests *)

(** Both digest loops feed the whole file to the hash object, in pieces of
    4096 bytes, and end within the iterations they are given. *)
Ltac digest_loop_tac loop :=
  let fuel := fresh "fuel" in
  let IH := fresh "IH" in
  let Hchunk := fresh "Hchunk" in
  intros fuel; induction fuel as [|fuel IH]; intros h f Hfuel; [lia |];
  cbn [loop]; rewrite read_pos by lia;
  destruct (take (Z.to_nat 4096) f) as [|x chunk] eqn:Hchunk;
  [ apply take_nil_inv in Hchunk; [| lia]; subst f;
    destruct h; cbn; rewrite app_nil_r; reflexivity
  | rewrite <- Hchunk; rewrite IH;
    [ unfold hashlib.update; cbn [hashlib.fed];
      rewrite <- app_assoc, take_drop; reflexivity
    | rewrite length_drop;
      assert (length (take (Z.to_nat 4096) f) <> 0)%nat
        by (rewrite Hchunk; discriminate);
      rewrite length_take in *; lia ] ].

Lemma client_md5_loop :
  forall (fuel : nat) (h : hashlib.md5_obj) (f : bytes),
    (length f < fuel)%nat ->
    Client.md5_loop fuel h f = Return {| hashlib.fed := hashlib.fed h ++ f |}.
Proof. digest_loop_tac Client.md5_loop. Qed.

Lemma server_md5_loop :
  forall (fuel : nat) (h : hashlib.md5_obj) (f : bytes),
    (length f < fuel)%nat ->
    Server.md5_loop fuel h f = Return {| hashlib.fed := hashlib.fed h ++ f |}.
Proof. digest_loop_tac Server.md5_loop. Qed.

(** The digest of a file is the MD5 of its content. *)
Lemma calculate_md5_content (fs : gmap string node) (path : string) (content : bytes) :
  fs !! path = Some (File content) ->
  Client._calculate_md5 fs path
  = Return (hashlib.hex_of_bytes (hashlib.md5_digest content)).
Proof.
  intros Hfile. unfold Client._calculate_md5, io.open_rb. rewrite Hfile.
  rewrite client_md5_loop by lia. reflexivity.
Qed.

Lemma GetFileInfo_content (self : Server.FileTransferServicer)
    (request : FileInfoRequest) (files : gmap string node) (content : bytes) :
  files !! Path_join (Server.upload_dir self) (request_filename request)
  = Some (File content) ->
  Server.GetFileInfo self request files
  = Return {| exists_ := true;
              file_size := len content;
              checksum := hashlib.hex_of_bytes (hashlib.md5_digest content) |}.
Proof.
  intros Hfile. unfold Server.GetFileInfo, io.open_rb. rewrite Hfile.
  rewrite server_md5_loop by lia. reflexivity.
Qed.

(** Neither digest call runs out of iterations. *)
Lemma calculate_md5_finishes (fs : gmap string node) (path : string) :
  Client._calculate_md5 fs path <> OutOfFuel.
Proof.
  unfold Client._calculate_md5.
  destruct (io.open_rb fs path) as [e | f]; [discriminate |].
  rewrite client_md5_loop by lia. discriminate.
Qed.

Lemma GetFileInfo_finishes (self : Server.FileTransferServicer)
    (request : FileInfoRequest) (files : gmap string node) :
  Server.GetFileInfo self request files <> OutOfFuel.
Proof.
  unfold Server.GetFileInfo.
  destruct (files !! _); [| discriminate].
  destruct (io.open_rb files _) as [e | f]; [discriminate |].
  rewrite server_md5_loop by lia. discriminate.
Qed.

(** The pieces the producer cuts, put end to end, are the file. *)
Lemma chunks_from_concat name (size total : Z) :
  0 < size ->
  forall (n : nat) (f : bytes) (k : Z),
    len f <= Z.of_nat n * size ->
    concat (map data (Spec.chunks_from name size total f k n)) = f.
Proof.
  intros Hsize. induction n as [|n IH]; intros f k Hlen.
  - destruct f; [reflexivity | unfold len in Hlen; simpl in Hlen; lia].
  - rewrite chunks_from_cons. cbn [map concat data].
    rewrite IH.
    + apply take_drop.
    + unfold len in *. rewrite length_drop. lia.
Qed.

Lemma yielded_concat (self : Client.FileTransferClient)
    (fs : gmap string node) (path : string) (content : bytes) :
  0 < Client.chunk_size self ->
  fs !! path = Some (File content) ->
  concat (map data (Client.yielded (Client._generate_file_chunks self fs path)))
  = content.
Proof.
  intros HC Hfile.
  destruct (generate_spec self fs path content HC Hfile) as [_ ->].
  unfold Spec.chunks. apply chunks_from_concat; [assumption |].
  pose proof (ceil_bounds (len content) (Client.chunk_size self) HC).
  pose proof (len_nonneg content).
  assert (0 <= (len content + Client.chunk_size self - 1) / Client.chunk_size self)
    by (apply Z.div_pos; lia).
  rewrite Z2Nat.id by assumption. lia.
Qed.


Example GetFileInfo_never_written :
  Server.GetFileInfo servicer {| request_filename := "absent.bin" |} stored_fs
  = Return {| exists_ := false; file_size := 0; checksum := "" |}.
Proof. vm_compute. reflexivity. Qed.

Example GetFileInfo_stored :
  Server.GetFileInfo servicer {| request_filename := "hello.txt" |} stored_fs
  = Return {| exists_ := true; file_size := 5;
              checksum := "5d41402abc4b2a76b9719d911017c592" |}.
Proof. vm_compute. reflexivity. Qed.

(** C8. The digest depends on the bytes only.  The sender's digest of a
    file is the MD5 of its content in hexadecimal, wherever the file is and
    however often it is computed; and when the receiver's stored copy is
    the data of the chunks the producer cut, put end to end, GetFileInfo
    answers with the same checksum, whatever the chunk size of the
    transfer was. *)
Theorem digest_independent_of_chunking (self : Client.FileTransferClient)
    (srv : Server.FileTransferServicer)
    (local_fs : gmap string node) (local_path : string) (content : bytes)
    (name : string) (files : gmap string node) :
  0 < Client.chunk_size self ->
  local_fs !! local_path = Some (File content) ->
  files !! Path_join (Server.upload_dir srv) name
  = Some (File (concat (map data (Client.yielded
                  (Client._generate_file_chunks self local_fs local_path))))) ->
  exists d : string,
    d = hashlib.hex_of_bytes (hashlib.md5_digest content)
    /\ Client._calculate_md5 local_fs local_path = Return d
    /\ Server.GetFileInfo srv {| request_filename := name |} files
       = Return {| exists_ := true; file_size := len content; checksum := d |}
    /\ (forall (fs' : gmap string node) (path' : string),
          fs' !! path' = Some (File content) ->
          Client._calculate_md5 fs' path' = Return d)
    /\ (forall (srv' : Server.FileTransferServicer) (name' : string)
               (files' : gmap string node),
          files' !! Path_join (Server.upload_dir srv') name' = Some (File content) ->
          Server.GetFileInfo srv' {| request_filename := name' |} files'
          = Return {| exists_ := true; file_size := len content; checksum := d |}).
Proof.
  intros HC Hlocal Hstored.
  rewrite (yielded_concat self local_fs local_path content HC Hlocal) in Hstored.
  exists (hashlib.hex_of_bytes (hashlib.md5_digest content)).
  split; [reflexivity |].
  split; [apply calculate_md5_content; assumption |].
  split; [apply GetFileInfo_content; assumption |].
  split.
  - intros fs' path' H'. apply calculate_md5_content; assumption.
  - intros srv' name' files' H'. apply GetFileInfo_content; assumption.
Qed.

Lemma digest_independent_of_chunking_witness :
  exists d : string,
    d = hashlib.hex_of_bytes (hashlib.md5_digest (ascii_bytes "hello"))
    /\ Client._calculate_md5 hello_fs "/tmp/hello.txt" = Return d
    /\ Server.GetFileInfo servicer {| request_filename := "hello.txt" |} stored_fs
       = Return {| exists_ := true; file_size := len (ascii_bytes "hello");
                   checksum := d |}
    /\ (forall (fs' : gmap string node) (path' : string),
          fs' !! path' = Some (File (ascii_bytes "hello")) ->
          Client._calculate_md5 fs' path' = Return d)
    /\ (forall (srv' : Server.FileTransferServicer) (name' : string)
               (files' : gmap string node),
          files' !! Path_join (Server.upload_dir srv') name'
          = Some (File (ascii_bytes "hello")) ->
          Server.GetFileInfo srv' {| request_filename := name' |} files'
          = Return {| exists_ := true; file_size := len (ascii_bytes "hello");
                      checksum := d |}).
Proof.
  apply (digest_independent_of_chunking (client_with 2) servicer hello_fs
           "/tmp/hello.txt" (ascii_bytes "hello") "hello.txt" stored_fs).
  - reflexivity.
  - reflexivity.
  - vm_compute. reflexivity.
Defined.

(** C9. When the server answers exists=false, verify_file returns False at
    once: it computes no digest and compares no checksum.  When the server
    answers exists=true and the local digest is computed, verify_file
    compares the two checksums and returns True exactly when they are the
    same string. *)
Theorem verify_file_decision (self : Client.FileTransferClient)
    (GetFileInfo : FileInfoRequest -> exn + FileInfoResponse)
    (fs : gmap string node) (name local_path : string)
    (response : FileInfoResponse) :
  GetFileInfo {| request_filename := name |} = inr response ->
  (exists_ response = false ->
   Client.verify_file self GetFileInfo fs name local_path
   = (Return false, [Client.LogError "❌ El archivo no existe en el servidor"]))
  /\ (forall local_checksum : string,
        exists_ response = true ->
        Client._calculate_md5 fs local_path = Return local_checksum ->
        exists (b : bool) (line : Client.effect),
          Client.verify_file self GetFileInfo fs name local_path
          = (Return b,
             [Client.Digest local_path;
              Client.Compare local_checksum (checksum response); line])
          /\ (b = true <-> local_checksum = checksum response)).
Proof.
  intros Hrpc. unfold Client.verify_file. rewrite Hrpc. split.
  - intros ->. reflexivity.
  - intros local_checksum -> ->.
    destruct (String.eqb_spec local_checksum (checksum response)) as [Heq | Hne].
    + eexists true, _. split; [reflexivity | tauto].
    + eexists false, _. split; [reflexivity |]. split; [discriminate | tauto].
Qed.

Lemma verify_file_decision_witness :
  let response := {| exists_ := true; file_size := 5;
                     checksum := "5d41402abc4b2a76b9719d911017c592" |} in
  stub_GetFileInfo servicer stored_fs {| request_filename := "hello.txt" |}
  = inr response
  /\ (exists_ response = false ->
      Client.verify_file (client_with 2) (stub_GetFileInfo servicer stored_fs)
        hello_fs "hello.txt" "/tmp/hello.txt"
      = (Return false, [Client.LogError "❌ El archivo no existe en el servidor"]))
  /\ (forall local_checksum : string,
        exists_ response = true ->
        Client._calculate_md5 hello_fs "/tmp/hello.txt" = Return local_checksum ->
        exists (b : bool) (line : Client.effect),
          Client.verify_file (client_with 2) (stub_GetFileInfo servicer stored_fs)
            hello_fs "hello.txt" "/tmp/hello.txt"
          = (Return b,
             [Client.Digest "/tmp/hello.txt";
              Client.Compare local_checksum (checksum response); line])
          /\ (b = true <-> local_checksum = checksum response)).
Proof.
  intros response.
  assert (Hrpc : stub_GetFileInfo servicer stored_fs {| request_filename := "hello.txt" |}
                 = inr response) by (vm_compute; reflexivity).
  split; [exact Hrpc |].
  exact (verify_file_decision (client_with 2) (stub_GetFileInfo servicer stored_fs)
           hello_fs "hello.txt" "/tmp/hello.txt" response Hrpc).
Defined.

Lemma verify_file_finishes (self : Client.FileTransferClient)
    (GetFileInfo : FileInfoRequest -> exn + FileInfoResponse)
    (fs : gmap string node) (name local_path : string) :
  fst (Client.verify_file self GetFileInfo fs name local_path) <> OutOfFuel.
Proof.
  unfold Client.verify_file.
  destruct (GetFileInfo _) as [e | response]; [discriminate |].
  destruct (exists_ response); [| discriminate].
  pose proof (calculate_md5_finishes fs local_path) as Hfin.
  destruct (Client._calculate_md5 fs local_path) as [d | e |];
    [destruct (String.eqb d (checksum response)); discriminate
    | discriminate | contradiction].
Qed.

Example verify_file_match :
  fst (Client.verify_file (client_with 2) (stub_GetFileInfo servicer stored_fs)
         hello_fs "hello.txt" "/tmp/hello.txt")
  = Return true.
Proof. vm_compute. reflexivity. Qed.

Example verify_file_mismatch :
  fst (Client.verify_file (client_with 2) (stub_GetFileInfo servicer corrupted_fs)
         hello_fs "hello.txt" "/tmp/hello.txt")
  = Return false.
Proof. vm_compute. reflexivity. Qed.

Example verify_file_remote_missing :
  Client.verify_file (client_with 2) (stub_GetFileInfo servicer ∅)
    hello_fs "hello.txt" "/tmp/hello.txt"
  = (Return false, [Client.LogError "❌ El archivo no existe en el servidor"]).
Proof. vm_compute. reflexivity. Qed.

(** * Further properties of the code *)

(** ** The producer when [stat] and the content disagree *)

Lemma ceil_drop (f : bytes) (C : Z) :
  0 < C -> 0 < len f ->
  (len (drop (Z.to_nat C) f) + C - 1) / C = (len f + C - 1) / C - 1.
Proof.
  intros HC Hf.
  destruct (Z.le_gt_cases (len f) C) as [Hle | Hgt].
  - assert (Hnil : drop (Z.to_nat C) f = []).
    { apply drop_ge. unfold len in Hle. lia. }
    rewrite Hnil. change (len (@nil Byte.byte)) with 0.
    rewrite ceil_zero by assumption.
    apply (ceil_one (len f) C HC Hf) in Hle. lia.
  - assert (Hlen : len (drop (Z.to_nat C) f) = len f - C).
    { unfold len in *. rewrite length_drop. lia. }
    rewrite Hlen. apply ceil_step. assumption.
Qed.

(** How many chunks the loop hands out from [f] after chunk [k], when it
    counts up to [total]: up to the flagged one, if its number is among
    those the content gives, and all the content otherwise. *)
Lemma chunk_loop_general (self : Client.FileTransferClient) name fsize total :
  0 < Client.chunk_size self ->
  0 < fsize ->
  forall (fuel : nat) (f : bytes) (k b : Z),
    (length f < fuel)%nat ->
    let n := (len f + Client.chunk_size self - 1) / Client.chunk_size self in
    let m := if (k <? total) && (total - k <=? n) then total - k else n in
    let run := Client.chunk_loop fuel self name fsize total f k b in
    Client.ended run = Client.StopIteration
    /\ Client.yielded run
       = Spec.chunks_from name (Client.chunk_size self) total f k (Z.to_nat m).
Proof.
  intros HC Hfsize. set (C := Client.chunk_size self) in *.
  induction fuel as [|fuel IH]; intros f k b Hfuel; [lia |].
  cbn zeta. cbn [Client.chunk_loop]. fold C. rewrite read_pos by assumption.
  destruct (take (Z.to_nat C) f) as [|x chunk] eqn:Hchunk.
  - apply take_nil_inv in Hchunk; [| lia]. subst f.
    change (len (@nil Byte.byte)) with 0. rewrite ceil_zero by assumption.
    assert (Hm : (if (k <? total) && (total - k <=? 0) then total - k else 0) <= 0).
    { destruct (Z.ltb_spec k total), (Z.leb_spec (total - k) 0); cbn; lia. }
    replace (Z.to_nat _) with 0%nat by lia. split; reflexivity.
  - rewrite <- Hchunk.
    assert (Hf : 0 < len f).
    { unfold len. destruct f; [destruct (Z.to_nat C); discriminate | simpl; lia]. }
    pose proof (ceil_pos (len f) C HC Hf) as Hn.
    pose proof (ceil_drop f C HC Hf) as Hdrop.
    rewrite ended_emit, yielded_emit_Yield.
    destruct (Z.eqb_spec fsize 0) as [| _]; [lia |].
    set (next := if k + 1 =? total then Client.stop Client.StopIteration
                 else Client.chunk_loop fuel self name fsize total
                        (drop (Z.to_nat C) f) (k + 1)
                        (b + len (take (Z.to_nat C) f))).
    assert (Hprog :
      Client.ended (if (k + 1) mod 100 =? 0
                    then Client.emit
                           (Client.Progress (b + len (take (Z.to_nat C) f)) fsize) next
                    else next) = Client.ended next
      /\ Client.yielded (if (k + 1) mod 100 =? 0
                    then Client.emit
                           (Client.Progress (b + len (take (Z.to_nat C) f)) fsize) next
                    else next) = Client.yielded next).
    { destruct ((k + 1) mod 100 =? 0); split; reflexivity. }
    destruct Hprog as [-> ->]. subst next.
    set (n := (len f + C - 1) / C) in *.
    destruct (k + 1 =? total) eqn:Hflag.
    + apply Z.eqb_eq in Hflag as Hlast.
      assert (Hm : (if (k <? total) && (total - k <=? n) then total - k else n) = 1).
      { destruct (Z.ltb_spec k total), (Z.leb_spec (total - k) n); cbn; lia. }
      rewrite Hm. change (Z.to_nat 1) with 1%nat. rewrite chunks_from_cons, Hflag.
      split; reflexivity.
    + apply Z.eqb_neq in Hflag as Hmore.
      destruct (IH (drop (Z.to_nat C) f) (k + 1) (b + len (take (Z.to_nat C) f)))
        as [Hend Hyield].
      { rewrite length_drop. unfold len in Hf. lia. }
      cbn zeta in Hend, Hyield. fold C in Hend, Hyield.
      rewrite Hdrop in Hyield.
      split; [exact Hend |]. rewrite Hyield.
      set (m' := if (k + 1 <? total) && (total - (k + 1) <=? n - 1)
                 then total - (k + 1) else n - 1).
      set (m := if (k <? total) && (total - k <=? n) then total - k else n).
      assert (Hm : Z.to_nat m = S (Z.to_nat m')).
      { subst m m'.
        destruct (Z.ltb_spec k total), (Z.leb_spec (total - k) n),
          (Z.ltb_spec (k + 1) total), (Z.leb_spec (total - (k + 1)) (n - 1));
          cbn; lia. }
      rewrite Hm, chunks_from_cons, Hflag. reflexivity.
Qed.

Lemma chunks_from_take name (size total : Z) :
  forall (n : nat) (f : bytes) (k : Z),
    concat (map data (Spec.chunks_from name size total f k n))
    = take (n * Z.to_nat size) f.
Proof.
  induction n as [|n IH]; intros f k; [reflexivity |].
  rewrite chunks_from_cons. cbn [map concat data]. rewrite IH.
  rewrite take_take_drop. f_equal.
Qed.

Lemma chunks_from_flags name (size total : Z) (f : bytes) (k : Z) (n : nat) :
  total <= k \/ k + Z.of_nat n < total ->
  Forall (fun c => is_last_chunk c = false)
         (Spec.chunks_from name size total f k n).
Proof.
  intros Hout. unfold Spec.chunks_from.
  apply Forall_forall. intros c Hc.
  apply list_elem_of_fmap in Hc as [i [-> Hi]].
  apply elem_of_seq in Hi. cbn [is_last_chunk].
  destruct (Z.eqb_spec (k + Z.of_nat i + 1) total); [lia | reflexivity].
Qed.

(** X1. If the file holds more than [stat] said when the chunks were
    counted, the loop stops at the chunk it counted as last: what lies
    beyond [total] chunks is never handed out, and the run still ends
    normally with its last chunk flagged. *)
Theorem producer_truncates_grown_file (self : Client.FileTransferClient)
    (name : string) (fsize : Z) (f : bytes) :
  let C := Client.chunk_size self in
  let total := (fsize + C - 1) / C in
  0 < C ->
  0 < fsize ->
  total * C < len f ->
  let run := Client.chunk_loop (S (length f)) self name fsize total f 0 0 in
  Client.ended run = Client.StopIteration
  /\ len (Client.yielded run) = total
  /\ concat (map data (Client.yielded run)) = take (Z.to_nat (total * C)) f
  /\ len (concat (map data (Client.yielded run))) < len f
  /\ (forall c, last (Client.yielded run) = Some c -> is_last_chunk c = true).
Proof.
  intros C total HC Hfsize Hgrown run.
  pose proof (ceil_pos fsize C HC Hfsize) as Htotal. fold total in Htotal.
  destruct (chunk_loop_general self name fsize total HC Hfsize
              (S (length f)) f 0 0 ltac:(lia)) as [Hend Hyield].
  fold C run in Hend, Hyield.
  assert (Hn : total < (len f + C - 1) / C).
  { pose proof (ceil_bounds (len f) C HC) as Hb.
    destruct (Z.lt_ge_cases total ((len f + C - 1) / C)); [assumption | nia]. }
  assert (Hm : (if (0 <? total) && (total - 0 <=? (len f + C - 1) / C)
                then total - 0 else (len f + C - 1) / C) = total).
  { destruct (Z.ltb_spec 0 total), (Z.leb_spec (total - 0) ((len f + C - 1) / C));
      cbn; lia. }
  rewrite Hm in Hyield.
  assert (Hcat : concat (map data (Client.yielded run)) = take (Z.to_nat (total * C)) f).
  { rewrite Hyield, chunks_from_take. f_equal. nia. }
  split; [exact Hend |].
  split; [rewrite Hyield; unfold len; rewrite chunks_from_length; lia |].
  split; [exact Hcat |].
  split; [rewrite Hcat; unfold len in *; rewrite length_take; lia |].
  intros c Hc. rewrite Hyield in Hc. unfold Spec.chunks_from in Hc.
  rewrite fmap_last in Hc.
  destruct (last (seq 0 (Z.to_nat total))) as [i |] eqn:Hi; [| discriminate].
  injection Hc as <-. cbn [is_last_chunk].
  rewrite last_lookup, length_seq in Hi. apply lookup_seq in Hi as [-> _].
  apply Z.eqb_eq. lia.
Qed.

Lemma producer_truncates_grown_file_witness :
  let run := Client.chunk_loop 6 (client_with 2) "hello.txt" 3 2
               (ascii_bytes "hello") 0 0 in
  Client.ended run = Client.StopIteration
  /\ len (Client.yielded run) = 2
  /\ concat (map data (Client.yielded run))
     = take (Z.to_nat (2 * 2)) (ascii_bytes "hello")
  /\ len (concat (map data (Client.yielded run))) < len (ascii_bytes "hello")
  /\ (forall c, last (Client.yielded run) = Some c -> is_last_chunk c = true).
Proof.
  apply (producer_truncates_grown_file (client_with 2) "hello.txt" 3
           (ascii_bytes "hello")).
  - reflexivity.
  - reflexivity.
  - reflexivity.
Defined.

(** X2. If the file holds less than [stat] said, so that fewer chunks can
    be cut than were counted, the loop hands out all the content and ends
    at the end of the file, and no chunk it handed out is flagged last. *)
Theorem producer_never_flags_shrunk_file (self : Client.FileTransferClient)
    (name : string) (fsize : Z) (f : bytes) :
  let C := Client.chunk_size self in
  let total := (fsize + C - 1) / C in
  0 < C ->
  0 < fsize ->
  (len f + C - 1) / C < total ->
  let run := Client.chunk_loop (S (length f)) self name fsize total f 0 0 in
  Client.ended run = Client.StopIteration
  /\ concat (map data (Client.yielded run)) = f
  /\ Forall (fun c => is_last_chunk c = false) (Client.yielded run).
Proof.
  intros C total HC Hfsize Hshrunk run.
  destruct (chunk_loop_general self name fsize total HC Hfsize
              (S (length f)) f 0 0 ltac:(lia)) as [Hend Hyield].
  fold C run in Hend, Hyield.
  assert (H0 : 0 <= (len f + C - 1) / C).
  { apply Z.div_pos; [pose proof (len_nonneg f) |]; lia. }
  assert (Hm : (if (0 <? total) && (total - 0 <=? (len f + C - 1) / C)
                then total - 0 else (len f + C - 1) / C) = (len f + C - 1) / C).
  { destruct (Z.ltb_spec 0 total), (Z.leb_spec (total - 0) ((len f + C - 1) / C));
      cbn; lia. }
  rewrite Hm in Hyield.
  split; [exact Hend |]. rewrite Hyield. split.
  - apply chunks_from_concat; [assumption |].
    pose proof (ceil_bounds (len f) C HC). rewrite Z2Nat.id by assumption. lia.
  - apply chunks_from_flags. right. lia.
Qed.

Lemma producer_never_flags_shrunk_file_witness :
  let run := Client.chunk_loop 4 (client_with 2) "hello.txt" 5 3
               (ascii_bytes "hel") 0 0 in
  Client.ended run = Client.StopIteration
  /\ concat (map data (Client.yielded run)) = ascii_bytes "hel"
  /\ Forall (fun c => is_last_chunk c = false) (Client.yielded run).
Proof.
  apply (producer_never_flags_shrunk_file (client_with 2) "hello.txt" 5
           (ascii_bytes "hel")).
  - reflexivity.
  - reflexivity.
  - reflexivity.
Defined.

(** ** What every run of the producer keeps *)

(** What is handed out after a chunk: nothing more, or what the rest of
    the loop hands out. *)
Lemma after_yield (cond stale : bool) (e : exn) (p : Client.event)
    (next : Client.gen_run) :
  (forall c, p <> Client.Yield c) ->
  let rest := if cond
              then if stale then Client.stop (Client.Raised e)
                   else Client.emit p next
              else next in
  Client.yielded rest = [] \/ Client.yielded rest = Client.yielded next.
Proof.
  intros Hp. destruct cond; [| right; reflexivity].
  destruct stale; [left; reflexivity | right].
  destruct p; [destruct (Hp c); reflexivity | reflexivity].
Qed.

Lemma chunk_loop_chunks (self : Client.FileTransferClient) name fsize total :
  forall (fuel : nat) (f : bytes) (k b : Z),
    Forall (fun c => data c <> []
                     /\ filename c = name
                     /\ total_chunks c = total
                     /\ k < chunk_number c
                     /\ (0 < Client.chunk_size self ->
                         len (data c) <= Client.chunk_size self))
           (Client.yielded (Client.chunk_loop fuel self name fsize total f k b)).
Proof.
  induction fuel as [|fuel IH]; intros f k b; [constructor |].
  cbn [Client.chunk_loop].
  destruct (io.read f (Client.chunk_size self)) as [e | [chunk f']] eqn:Hread;
    [constructor |].
  destruct chunk as [|x chunk]; [constructor |].
  rewrite yielded_emit_Yield. constructor.
  - cbn. repeat split; try discriminate; try lia.
    intros HC. rewrite read_pos in Hread by assumption.
    injection Hread as Hc _. rewrite <- Hc.
    unfold len. rewrite length_take. lia.
  - set (next := if k + 1 =? total then Client.stop Client.StopIteration
                 else Client.chunk_loop fuel self name fsize total f' (k + 1)
                        (b + len (x :: chunk))).
    destruct (after_yield ((k + 1) mod 100 =? 0) (fsize =? 0)
                (ZeroDivisionError "division by zero")
                (Client.Progress (b + len (x :: chunk)) fsize) next
                ltac:(discriminate)) as [-> | ->]; [constructor |].
    subst next. destruct (k + 1 =? total); [constructor |].
    eapply Forall_impl; [apply IH |].
    cbn. intros c (? & ? & ? & ? & ?). repeat split; try assumption. lia.
Qed.

(** X3. Whatever the client, the files and the path are, every chunk the
    producer hands out has data in it, carries the last component of the
    path as its file name, and is numbered from 1 up; with a positive chunk
    size its data is no longer than the chunk size. *)
Theorem producer_chunks_well_formed (self : Client.FileTransferClient)
    (fs : gmap string node) (path : string) :
  Forall (fun c => data c <> []
                   /\ filename c = Path_name path
                   /\ 1 <= chunk_number c
                   /\ (0 < Client.chunk_size self ->
                       len (data c) <= Client.chunk_size self))
         (Client.yielded (Client._generate_file_chunks self fs path)).
Proof.
  unfold Client._generate_file_chunks.
  destruct (fs !! path) as [nd |]; [| constructor].
  destruct (Client.count_chunks self (io.st_size nd)) as [e | total]; [constructor |].
  destruct (io.open_rb fs path) as [e | f]; [constructor |].
  eapply Forall_impl; [apply chunk_loop_chunks |].
  cbn. intros c (? & ? & ? & ? & ?). repeat split; try assumption. lia.
Qed.

(** X5. For a regular file and a positive chunk size, the data of the
    chunks handed out, put end to end in the order of their numbers, is
    the content of the file, byte for byte. *)
Theorem producer_round_trip (self : Client.FileTransferClient)
    (fs : gmap string node) (path : string) (content : bytes) :
  0 < Client.chunk_size self ->
  fs !! path = Some (File content) ->
  let chunks := Client.yielded (Client._generate_file_chunks self fs path) in
  concat (map data chunks) = content
  /\ map chunk_number chunks = map (fun i : nat => Z.of_nat i + 1) (seq 0 (length chunks)).
Proof.
  intros HC Hfile chunks. split.
  - apply yielded_concat; assumption.
  - subst chunks.
    destruct (generate_spec self fs path content HC Hfile) as [_ ->].
    unfold Spec.chunks. rewrite chunks_from_length.
    unfold Spec.chunks_from. rewrite map_map. reflexivity.
Qed.

Lemma producer_round_trip_witness :
  let chunks :=
    Client.yielded
      (Client._generate_file_chunks (client_with 2) hello_fs "/tmp/hello.txt") in
  concat (map data chunks) = ascii_bytes "hello"
  /\ map chunk_number chunks = map (fun i : nat => Z.of_nat i + 1) (seq 0 (length chunks)).
Proof.
  apply (producer_round_trip (client_with 2) hello_fs "/tmp/hello.txt"
           (ascii_bytes "hello")).
  - reflexivity.
  - reflexivity.
Defined.

(** ** The body of the [with] statement of TransferFile, taken by itself

    The [with] statement of TransferFile raises before its body is
    entered; what follows is what the body, the receive loop and the
    closing after it, does when it is run, from the local variables
    TransferFile sets before its [try]. *)

Lemma payload_cons (c : FileChunk) (rest : list FileChunk) :
  Spec.payload (c :: rest)
  = data c ++ (if is_last_chunk c then [] else Spec.payload rest).
Proof.
  unfold Spec.payload. cbn [Spec.session].
  destruct (is_last_chunk c); cbn [map concat]; [rewrite app_nil_r |]; reflexivity.
Qed.

Lemma session_cons_len (c : FileChunk) (rest : list FileChunk) :
  len (Spec.session (c :: rest))
  = 1 + (if is_last_chunk c then 0 else len (Spec.session rest)).
Proof.
  cbn [Spec.session]. destruct (is_last_chunk c); unfold len; cbn [length]; lia.
Qed.

Lemma receive_chunk_flag (self : Server.FileTransferServicer) (c : FileChunk)
    (s s' : Server.state) (b : bool) :
  Server.receive_chunk self c s = (inr b, s') -> b = is_last_chunk c.
Proof.
  unfold Server.receive_chunk, Server.bind, Server.get, Server.assign,
    Server.ret, Server.raise.
  cbn. repeat case_match; intros; simplify_eq; reflexivity.
Qed.

(** X6. The receive loop ends at the first chunk flagged last: whatever
    follows that chunk in the stream is not read, whatever happened
    before. *)
Theorem receive_loop_stops_at_last (self : Server.FileTransferServicer)
    (cs : list FileChunk) (c : FileChunk) (rest : list FileChunk)
    (s : Server.state) :
  is_last_chunk c = true ->
  Server.receive_loop self (cs ++ c :: rest) s
  = Server.receive_loop self (cs ++ [c]) s.
Proof.
  intros Hlast. revert s. induction cs as [|c0 cs IH]; intros s.
  - cbn [app Server.receive_loop]. unfold Server.bind.
    destruct (Server.receive_chunk self c s) as [[e | b] s'] eqn:Hc; [reflexivity |].
    apply receive_chunk_flag in Hc. subst b. rewrite Hlast. reflexivity.
  - cbn [app Server.receive_loop]. unfold Server.bind.
    destruct (Server.receive_chunk self c0 s) as [[e | b] s']; [reflexivity |].
    destruct b; [reflexivity | apply IH].
Qed.

Lemma receive_loop_stops_at_last_witness :
  is_last_chunk sound_chunk = true
  /\ Server.receive_loop servicer ([malformed_chunk] ++ sound_chunk :: [malformed_chunk])
       {| Server.vars := Server.initial_locals; Server.os := empty_world 100 |}
     = Server.receive_loop servicer ([malformed_chunk] ++ [sound_chunk])
         {| Server.vars := Server.initial_locals; Server.os := empty_world 100 |}.
Proof.
  split; [reflexivity |].
  apply (receive_loop_stops_at_last servicer [malformed_chunk] sound_chunk
           [malformed_chunk]).
  reflexivity.
Defined.

Lemma fresh_handle_closed (w : Server.world) :
  Server.open_files w !! fresh (dom (Server.open_files w)) = None.
Proof. apply not_elem_of_dom, is_fresh. Qed.

(** The loop body in a session that has its file open, on a disk with room
    for the data of the chunk. *)
Lemma receive_chunk_room (self : Server.FileTransferServicer) (c : FileChunk)
    (w0 : Server.world) (name path : string) (h : nat) (l : Server.locals)
    (disk buffer : bytes) (free : Z) :
  Server.filename l = Some name ->
  Server.f l = Some h ->
  0 < Server.buffer_size w0 ->
  len buffer + len (data c) <= free ->
  exists (disk' buffer' : bytes) (free' : Z),
    Server.receive_chunk self c
      {| Server.vars := l;
         Server.os := Server.holding (Server.on_disk w0 path disk free) h path buffer |}
    = (inr (is_last_chunk c),
       {| Server.vars :=
            {| Server.filename := Server.filename l;
               Server.file_path := Server.file_path l;
               Server.total_bytes := Server.total_bytes l + len (data c);
               Server.chunks_received := Server.chunks_received l + 1;
               Server.f := Server.f l |};
          Server.os := Server.holding (Server.on_disk w0 path disk' free') h path buffer' |})
    /\ disk' ++ buffer' = disk ++ buffer ++ data c
    /\ free' + len disk' = free + len disk.
Proof.
  intros Hname Hf HB Hroom.
  destruct l as [fname fpath bytes_in chunks_in fobj]. cbn in Hname, Hf. subst fname fobj.
  destruct (write_room w0 path h
              {| Server.filename := Some name; Server.file_path := fpath;
                 Server.total_bytes := bytes_in; Server.chunks_received := chunks_in;
                 Server.f := Some h |} disk buffer (data c) free HB Hroom)
    as (disk' & buffer' & free' & Hwrite & Happ & Hfree).
  exists disk', buffer', free'. split; [| split; assumption].
  unfold Server.receive_chunk, Server.bind, Server.get, Server.assign, Server.ret.
  cbn [Server.vars Server.filename Server.f]. rewrite Hwrite. reflexivity.
Qed.

(** The loop in such a session, with room for all it takes: the data of
    the chunks up to the flagged one comes after what the file object had,
    stored or held, and is counted. *)
Lemma receive_loop_room (self : Server.FileTransferServicer)
    (w0 : Server.world) (name path : string) (h : nat) :
  0 < Server.buffer_size w0 ->
  forall (cs : list FileChunk) (l : Server.locals) (disk buffer : bytes) (free : Z),
    Server.filename l = Some name ->
    Server.f l = Some h ->
    len buffer + len (Spec.payload cs) <= free ->
    exists (disk' buffer' : bytes) (free' : Z) (l' : Server.locals),
      Server.receive_loop self cs
        {| Server.vars := l;
           Server.os := Server.holding (Server.on_disk w0 path disk free) h path buffer |}
      = (inr tt,
         {| Server.vars := l';
            Server.os := Server.holding (Server.on_disk w0 path disk' free') h path buffer' |})
      /\ disk' ++ buffer' = disk ++ buffer ++ Spec.payload cs
      /\ free' + len disk' = free + len disk
      /\ Server.filename l' = Server.filename l
      /\ Server.file_path l' = Server.file_path l
      /\ Server.f l' = Server.f l
      /\ Server.total_bytes l' = Server.total_bytes l + len (Spec.payload cs)
      /\ Server.chunks_received l' = Server.chunks_received l + len (Spec.session cs).
Proof.
  intros HB. induction cs as [|c cs IH]; intros l disk buffer free Hname Hf Hroom.
  - exists disk, buffer, free, l. cbn [Server.receive_loop]. unfold Server.ret.
    change (Spec.payload []) with (@nil Byte.byte).
    change (len (Spec.session [])) with 0. change (len (@nil Byte.byte)) with 0.
    rewrite app_nil_r, !Z.add_0_r. repeat split; reflexivity.
  - rewrite payload_cons, len_app in Hroom.
    pose proof (len_nonneg (if is_last_chunk c then [] else Spec.payload cs)) as Hrest.
    destruct (receive_chunk_room self c w0 name path h l disk buffer free Hname Hf HB
                ltac:(lia)) as (disk1 & buffer1 & free1 & Hchunk & Happ1 & Hfree1).
    cbn [Server.receive_loop]. unfold Server.bind. rewrite Hchunk.
    rewrite payload_cons, session_cons_len.
    destruct (is_last_chunk c).
    + eexists disk1, buffer1, free1, _. split; [reflexivity |].
      rewrite app_nil_r. cbn. repeat split; try assumption; lia.
    + apply (f_equal len) in Happ1 as Hlen1. rewrite !len_app in Hlen1.
      destruct (IH {| Server.filename := Server.filename l;
                      Server.file_path := Server.file_path l;
                      Server.total_bytes := Server.total_bytes l + len (data c);
                      Server.chunks_received := Server.chunks_received l + 1;
                      Server.f := Server.f l |} disk1 buffer1 free1 Hname Hf ltac:(lia))
        as (disk' & buffer' & free' & l' & Hloop & Happ & Hfree & Hn & Hp & Hh & Hb & Hc).
      cbn in Hn, Hp, Hh, Hb, Hc.
      exists disk', buffer', free', l'. split; [exact Hloop |].
      split; [rewrite Happ, (app_assoc disk1), Happ1, <- !app_assoc; reflexivity |].
      rewrite len_app. repeat split; try assumption; lia.
Qed.

(** The first chunk of a call has the destination opened, and is then
    taken as any chunk of a session that has its file open. *)
Lemma receive_chunk_opens (self : Server.FileTransferServicer) (c : FileChunk)
    (w : Server.world) :
  let path := Path_join (Server.upload_dir self) (filename c) in
  let h := fresh (dom (Server.open_files w)) in
  (Server.fs w !! path = None \/ exists old, Server.fs w !! path = Some (File old)) ->
  Server.open_refused w !! path = None ->
  Server.receive_chunk self c
    {| Server.vars := Server.initial_locals; Server.os := w |}
  = Server.receive_chunk self c
      {| Server.vars :=
           {| Server.filename := Some (filename c);
              Server.file_path := Some path;
              Server.total_bytes := 0;
              Server.chunks_received := 0;
              Server.f := Some h |};
         Server.os := Server.holding
                        (Server.on_disk w path []
                           (Server.disk_free w + len (Server.stored w path)))
                        h path [] |}.
Proof.
  intros path h Hnode Hallowed.
  unfold Server.receive_chunk, Server.bind, Server.get, Server.assign,
    Server.open_wb, Server.ret.
  cbn [Server.vars Server.os Server.initial_locals Server.filename Server.f
       Server.file_path Server.total_bytes Server.chunks_received].
  fold path. rewrite Hallowed.
  destruct Hnode as [Hnode | [old Hnode]]; rewrite Hnode; reflexivity.
Qed.

(** The loop and the closing after it, from the start of a call. *)
Lemma session_body_stores_payload (self : Server.FileTransferServicer)
    (c : FileChunk) (rest : list FileChunk) (w : Server.world) :
  let path := Path_join (Server.upload_dir self) (filename c) in
  let s0 := {| Server.vars := Server.initial_locals; Server.os := w |} in
  (Server.fs w !! path = None \/ exists old, Server.fs w !! path = Some (File old)) ->
  Server.open_refused w !! path = None ->
  0 < Server.buffer_size w ->
  len (Spec.payload (c :: rest)) <= Server.disk_free w ->
  exists (s' s'' : Server.state) (h : nat) (disk buffer : bytes),
    Server.receive_loop self (c :: rest) s0 = (inr tt, s')
    /\ Server.fs (Server.os s') = <[path := File disk]> (Server.fs w)
    /\ Server.open_files (Server.os s') = <[h := (path, buffer)]> (Server.open_files w)
    /\ disk ++ buffer = Spec.payload (c :: rest)
    /\ Server.open_files w !! h = None
    /\ Server.f (Server.vars s') = Some h
    /\ Server.filename (Server.vars s') = Some (filename c)
    /\ Server.total_bytes (Server.vars s') = len (Spec.payload (c :: rest))
    /\ Server.chunks_received (Server.vars s') = len (Spec.session (c :: rest))
    /\ Server.session_body self (c :: rest) s0 = (inr tt, s'')
    /\ Server.vars s'' = Server.vars s'
    /\ Server.fs (Server.os s'')
       = <[path := File (Spec.payload (c :: rest))]> (Server.fs w)
    /\ Server.open_files (Server.os s'') = Server.open_files w.
Proof.
  intros path s0 Hnode Hallowed HB Hroom.
  set (h := fresh (dom (Server.open_files w))).
  set (K := Server.disk_free w + len (Server.stored w path)).
  set (l1 := {| Server.filename := Some (filename c);
                Server.file_path := Some path;
                Server.total_bytes := 0;
                Server.chunks_received := 0;
                Server.f := Some h |}).
  pose proof (len_nonneg (Server.stored w path)) as Hstored.
  destruct (receive_loop_room self w (filename c) path h HB (c :: rest) l1 [] [] K
              eq_refl eq_refl ltac:(change (len []) with 0; lia))
    as (disk & buffer & free & l' & Hloop & Happ & Hfree & Hn & Hp & Hh & Hb & Hc).
  cbn [app] in Happ. change (len []) with 0 in Hfree.
  unfold l1 in Hn, Hp, Hh, Hb, Hc.
  cbn [Server.filename Server.file_path Server.f Server.total_bytes
       Server.chunks_received] in Hn, Hp, Hh, Hb, Hc.
  assert (Hstart : Server.receive_loop self (c :: rest) s0
                   = Server.receive_loop self (c :: rest)
                       {| Server.vars := l1;
                          Server.os := Server.holding (Server.on_disk w path [] K)
                                         h path [] |}).
  { cbn [Server.receive_loop]. unfold Server.bind. subst s0.
    rewrite (receive_chunk_opens self c w Hnode Hallowed). reflexivity. }
  assert (Hlen : len disk + len buffer = len (Spec.payload (c :: rest)))
    by (rewrite <- Happ, len_app; reflexivity).
  eexists _, _, h, disk, buffer.
  split; [rewrite Hstart; exact Hloop |].
  cbn [Server.os Server.vars Server.holding Server.on_disk Server.fs Server.open_files].
  split; [reflexivity |]. split; [reflexivity |]. split; [exact Happ |].
  split; [apply fresh_handle_closed |]. split; [exact Hh |]. split; [exact Hn |].
  split; [lia |]. split; [lia |].
  split.
  - unfold Server.session_body, Server.bind at 1. rewrite Hstart, Hloop.
    unfold Server.bind, Server.get. cbn [Server.vars]. rewrite Hh. cbn [Server.f l1].
    unfold Server.close.
    cbn [Server.os Server.holding Server.open_files]. rewrite lookup_insert_eq.
    rewrite flush_room by lia. reflexivity.
  - cbn [Server.os Server.vars Server.released Server.holding Server.on_disk
         Server.fs Server.open_files].
    split; [reflexivity |]. split; [rewrite Happ; reflexivity |].
    rewrite delete_insert_eq. apply delete_id, fresh_handle_closed.
Qed.

(** X7. The body of the [with] statement of TransferFile, run from the
    initial local variables on a stream with at least one chunk, when the
    destination is absent or a regular file, the operating system does not
    refuse to open it, and the disk has room.  The loop names the destination
    after the first chunk alone and leaves one more file object open, on
    the destination; the data of the chunks up to the first one flagged
    last, in the order of arrival, is then partly stored and partly held by
    the file object, and the bytes and the chunks are counted.  The closing
    after the loop stores what was held: the destination has that data in
    place of whatever it held, every other file is as it was, and no file
    object is left open. *)
Theorem receive_loop_reassembles (self : Server.FileTransferServicer)
    (c : FileChunk) (rest : list FileChunk) (w : Server.world) :
  let path := Path_join (Server.upload_dir self) (filename c) in
  let s0 := {| Server.vars := Server.initial_locals; Server.os := w |} in
  (Server.fs w !! path = None \/ exists old, Server.fs w !! path = Some (File old)) ->
  Server.open_refused w !! path = None ->
  0 < Server.buffer_size w ->
  len (Spec.payload (c :: rest)) <= Server.disk_free w ->
  exists (s' s'' : Server.state) (h : nat) (disk buffer : bytes),
    Server.receive_loop self (c :: rest) s0 = (inr tt, s')
    /\ Server.fs (Server.os s') = <[path := File disk]> (Server.fs w)
    /\ Server.open_files (Server.os s') = <[h := (path, buffer)]> (Server.open_files w)
    /\ disk ++ buffer = Spec.payload (c :: rest)
    /\ Server.open_files w !! h = None
    /\ Server.f (Server.vars s') = Some h
    /\ Server.filename (Server.vars s') = Some (filename c)
    /\ Server.total_bytes (Server.vars s') = len (Spec.payload (c :: rest))
    /\ Server.chunks_received (Server.vars s') = len (Spec.session (c :: rest))
    /\ Server.session_body self (c :: rest) s0 = (inr tt, s'')
    /\ Server.vars s'' = Server.vars s'
    /\ Server.fs (Server.os s'')
       = <[path := File (Spec.payload (c :: rest))]> (Server.fs w)
    /\ Server.open_files (Server.os s'') = Server.open_files w.
Proof.
  intros path s0. exact (session_body_stores_payload self c rest w).
Qed.

Lemma receive_loop_reassembles_witness :
  let path := Path_join (Server.upload_dir servicer) (filename sound_chunk) in
  let w := uploads_world in
  let s0 := {| Server.vars := Server.initial_locals; Server.os := w |} in
  exists (s' s'' : Server.state) (h : nat) (disk buffer : bytes),
    Server.receive_loop servicer (sound_chunk :: [malformed_chunk]) s0 = (inr tt, s')
    /\ Server.fs (Server.os s') = <[path := File disk]> (Server.fs w)
    /\ Server.open_files (Server.os s') = <[h := (path, buffer)]> (Server.open_files w)
    /\ disk ++ buffer = Spec.payload (sound_chunk :: [malformed_chunk])
    /\ Server.open_files w !! h = None
    /\ Server.f (Server.vars s') = Some h
    /\ Server.filename (Server.vars s') = Some (filename sound_chunk)
    /\ Server.total_bytes (Server.vars s')
       = len (Spec.payload (sound_chunk :: [malformed_chunk]))
    /\ Server.chunks_received (Server.vars s')
       = len (Spec.session (sound_chunk :: [malformed_chunk]))
    /\ Server.session_body servicer (sound_chunk :: [malformed_chunk]) s0 = (inr tt, s'')
    /\ Server.vars s'' = Server.vars s'
    /\ Server.fs (Server.os s'')
       = <[path := File (Spec.payload (sound_chunk :: [malformed_chunk]))]> (Server.fs w)
    /\ Server.open_files (Server.os s'') = Server.open_files w.
Proof.
  apply (receive_loop_reassembles servicer sound_chunk [malformed_chunk] uploads_world).
  - left. reflexivity.
  - reflexivity.
  - reflexivity.
  - vm_compute. discriminate.
Defined.

Lemma session_chunks_from name (size total : Z) :
  forall (n : nat) (f : bytes) (k : Z),
    total = k + Z.of_nat n ->
    Spec.session (Spec.chunks_from name size total f k n)
    = Spec.chunks_from name size total f k n.
Proof.
  induction n as [|n IH]; intros f k Htotal; [reflexivity |].
  rewrite chunks_from_cons. cbn [Spec.session is_last_chunk].
  destruct (Z.eqb_spec (k + 1) total) as [Hlast | Hmore].
  - assert (n = 0%nat) as -> by lia. reflexivity.
  - rewrite IH by lia. reflexivity.
Qed.

(** X8. The producer and the body of the [with] statement of TransferFile,
    put together.  For a regular file and a positive chunk size, when the
    destination under the upload directory, at the last component of the
    source path, is absent or a regular file, the operating system does not
    refuse to open it, and the disk has room: the body, run on the chunks the
    producer hands out, leaves at the destination exactly the content of
    the source, counts its length, and leaves no file object open; for an
    empty file it is handed no chunk and leaves the machine as it is, so
    that no file is created. *)
Theorem producer_receive_loop_round_trip (self : Client.FileTransferClient)
    (srv : Server.FileTransferServicer)
    (local_fs : gmap string node) (local_path : string) (content : bytes)
    (w : Server.world) :
  let target := Path_join (Server.upload_dir srv) (Path_name local_path) in
  let chunks := Client.yielded (Client._generate_file_chunks self local_fs local_path) in
  let s0 := {| Server.vars := Server.initial_locals; Server.os := w |} in
  0 < Client.chunk_size self ->
  local_fs !! local_path = Some (File content) ->
  (Server.fs w !! target = None \/ exists old, Server.fs w !! target = Some (File old)) ->
  Server.open_refused w !! target = None ->
  0 < Server.buffer_size w ->
  len content <= Server.disk_free w ->
  (content = [] -> Server.session_body srv chunks s0 = (inr tt, s0))
  /\ (content <> [] ->
      exists s' : Server.state,
        Server.session_body srv chunks s0 = (inr tt, s')
        /\ Server.fs (Server.os s') = <[target := File content]> (Server.fs w)
        /\ Server.open_files (Server.os s') = Server.open_files w
        /\ Server.total_bytes (Server.vars s') = len content
        /\ Server.chunks_received (Server.vars s') = len chunks).
Proof.
  intros target chunks s0 HC Hfile Hdir Hallowed HB Hroom.
  destruct (generate_spec self local_fs local_path content HC Hfile) as [_ Hyield].
  pose proof (yielded_concat self local_fs local_path content HC Hfile) as Hcat.
  fold chunks in Hyield, Hcat.
  set (C := Client.chunk_size self) in *.
  set (total := (len content + C - 1) / C) in *.
  split.
  - intros ->. rewrite Hyield. subst total.
    change (len (@nil Byte.byte)) with 0. rewrite ceil_zero by assumption.
    reflexivity.
  - intros Hne.
    assert (Hlen : 0 < len content) by (unfold len; destruct content; simpl; [congruence | lia]).
    pose proof (ceil_pos (len content) C HC Hlen) as Htotal. fold total in Htotal.
    assert (Hsession : Spec.session chunks = chunks).
    { rewrite Hyield. unfold Spec.chunks. apply session_chunks_from. lia. }
    assert (Hpayload : Spec.payload chunks = content).
    { unfold Spec.payload. rewrite Hsession. exact Hcat. }
    destruct chunks as [|c rest] eqn:Hchunks.
    { unfold Spec.chunks in Hyield.
      replace (Z.to_nat total) with (S (Z.to_nat (total - 1))) in Hyield by lia.
      rewrite chunks_from_cons in Hyield. discriminate. }
    assert (Hname : filename c = Path_name local_path).
    { unfold Spec.chunks in Hyield.
      replace (Z.to_nat total) with (S (Z.to_nat (total - 1))) in Hyield by lia.
      rewrite chunks_from_cons in Hyield. injection Hyield as -> _. reflexivity. }
    subst target. rewrite <- Hname in Hdir, Hallowed |- *.
    destruct (session_body_stores_payload srv c rest w Hdir Hallowed HB
                ltac:(rewrite Hpayload; exact Hroom))
      as (s' & s'' & h & disk & buffer & _ & _ & _ & _ & _ & _ & _ & Hb & Hc
          & Hbody & Hvars & Hfs & Hopen).
    exists s''. split; [exact Hbody |].
    rewrite Hvars, Hfs, Hopen, Hb, Hc, Hpayload, Hsession.
    repeat split; reflexivity.
Qed.

Lemma producer_receive_loop_round_trip_witness :
  let target := Path_join (Server.upload_dir servicer) (Path_name "/tmp/hello.txt") in
  let chunks :=
    Client.yielded
      (Client._generate_file_chunks (client_with 2) hello_fs "/tmp/hello.txt") in
  let s0 := {| Server.vars := Server.initial_locals; Server.os := uploads_world |} in
  (ascii_bytes "hello" = [] -> Server.session_body servicer chunks s0 = (inr tt, s0))
  /\ (ascii_bytes "hello" <> [] ->
      exists s' : Server.state,
        Server.session_body servicer chunks s0 = (inr tt, s')
        /\ Server.fs (Server.os s')
           = <[target := File (ascii_bytes "hello")]> (Server.fs uploads_world)
        /\ Server.open_files (Server.os s') = Server.open_files uploads_world
        /\ Server.total_bytes (Server.vars s') = len (ascii_bytes "hello")
        /\ Server.chunks_received (Server.vars s') = len chunks).
Proof.
  apply (producer_receive_loop_round_trip (client_with 2) servicer hello_fs
           "/tmp/hello.txt" (ascii_bytes "hello") uploads_world).
  - reflexivity.
  - reflexivity.
  - left. reflexivity.
  - reflexivity.
  - reflexivity.
  - vm_compute. discriminate.
Defined.

(** ** The answers of GetFileInfo *)

Lemma bytes_le_length (n : nat) (x : Z) : length (hashlib.bytes_le n x) = n.
Proof.
  revert x. induction n as [|n IH]; intros x; [reflexivity |].
  cbn [hashlib.bytes_le length]. rewrite IH. reflexivity.
Qed.

Lemma md5_digest_length (msg : bytes) : length (hashlib.md5_digest msg) = 16%nat.
Proof.
  unfold hashlib.md5_digest.
  destruct (fold_left hashlib.compress _ hashlib.init_regs) as [[[A B] C] D].
  rewrite !length_app, !bytes_le_length. reflexivity.
Qed.

Lemma hex_of_bytes_length (bs : bytes) :
  String.length (hashlib.hex_of_bytes bs) = (2 * length bs)%nat.
Proof.
  induction bs as [|b bs IH]; [reflexivity |].
  change (hashlib.hex_of_bytes (b :: bs))
    with (String (hashlib.hex_digit (hashlib.Z_of_byte b / 16))
            (String (hashlib.hex_digit (hashlib.Z_of_byte b mod 16))
               (hashlib.hex_of_bytes bs))).
  cbn [String.length length]. rewrite IH. lia.
Qed.

(** The answer for a path that can be read: the size is the one [stat]
    reports, the checksum is the one of the bytes read. *)
Lemma GetFileInfo_readable (self : Server.FileTransferServicer)
    (request : FileInfoRequest) (files : gmap string node) (nd : node)
    (content : bytes) :
  files !! Path_join (Server.upload_dir self) (request_filename request) = Some nd ->
  io.open_rb files (Path_join (Server.upload_dir self) (request_filename request))
  = inr content ->
  Server.GetFileInfo self request files
  = Return {| exists_ := true;
              file_size := io.st_size nd;
              checksum := hashlib.hex_of_bytes (hashlib.md5_digest content) |}.
Proof.
  intros Hfile Hopen. unfold Server.GetFileInfo. rewrite Hfile, Hopen.
  rewrite server_md5_loop by lia. reflexivity.
Qed.

(** X10. Whenever GetFileInfo answers exists=true, the path is there and
    can be read, file_size is the size [stat] reports for it, and the
    checksum is the MD5 of the bytes read from it, as 32 hexadecimal digits;
    for a regular file, whose size is the length of its content, file_size
    is the number of bytes the checksum is taken over.  So an answer has an
    empty checksum exactly when it says exists=false. *)
Theorem GetFileInfo_checksum (self : Server.FileTransferServicer)
    (request : FileInfoRequest) (files : gmap string node)
    (response : FileInfoResponse) :
  Server.GetFileInfo self request files = Return response ->
  (exists_ response = true ->
   String.length (checksum response) = 32%nat
   /\ exists (nd : node) (content : bytes),
        files !! Path_join (Server.upload_dir self) (request_filename request)
        = Some nd
        /\ io.open_rb files
             (Path_join (Server.upload_dir self) (request_filename request))
           = inr content
        /\ file_size response = io.st_size nd
        /\ checksum response = hashlib.hex_of_bytes (hashlib.md5_digest content)
        /\ (forall stored : bytes,
              nd = File stored -> content = stored /\ file_size response = len stored))
  /\ (exists_ response = false <-> checksum response = ""%string).
Proof.
  intros Hanswer.
  destruct (files !! Path_join (Server.upload_dir self) (request_filename request))
    as [nd |] eqn:Hfile.
  - destruct (io.open_rb files
                (Path_join (Server.upload_dir self) (request_filename request)))
      as [e | content] eqn:Hopen.
    { unfold Server.GetFileInfo in Hanswer. rewrite Hfile, Hopen in Hanswer.
      discriminate. }
    rewrite (GetFileInfo_readable self request files nd content Hfile Hopen) in Hanswer.
    injection Hanswer as <-. cbn [exists_ file_size checksum].
    assert (Hlen : String.length (hashlib.hex_of_bytes (hashlib.md5_digest content))
                   = 32%nat).
    { rewrite hex_of_bytes_length, md5_digest_length. reflexivity. }
    split.
    + intros _. split; [exact Hlen |]. exists nd, content.
      split; [reflexivity |]. split; [reflexivity |]. split; [reflexivity |].
      split; [reflexivity |].
      intros stored ->. unfold io.open_rb in Hopen. rewrite Hfile in Hopen.
      injection Hopen as <-. split; reflexivity.
    + split; [discriminate |]. intros Hempty. rewrite Hempty in Hlen. discriminate.
  - unfold Server.GetFileInfo in Hanswer. rewrite Hfile in Hanswer.
    injection Hanswer as <-. cbn. split; [discriminate | split; reflexivity].
Qed.

Lemma GetFileInfo_checksum_witness :
  let response := {| exists_ := true; file_size := 5;
                     checksum := "5d41402abc4b2a76b9719d911017c592" |} in
  Server.GetFileInfo servicer {| request_filename := "hello.txt" |} stored_fs
  = Return response
  /\ (exists_ response = true ->
      String.length (checksum response) = 32%nat
      /\ exists (nd : node) (content : bytes),
           stored_fs !! Path_join (Server.upload_dir servicer) "hello.txt"
           = Some nd
           /\ io.open_rb stored_fs (Path_join (Server.upload_dir servicer) "hello.txt")
              = inr content
           /\ file_size response = io.st_size nd
           /\ checksum response = hashlib.hex_of_bytes (hashlib.md5_digest content)
           /\ (forall stored : bytes,
                 nd = File stored -> content = stored /\ file_size response = len stored))
  /\ (exists_ response = false <-> checksum response = ""%string).
Proof.
  intros response.
  assert (H : Server.GetFileInfo servicer {| request_filename := "hello.txt" |} stored_fs
              = Return response) by (vm_compute; reflexivity).
  split; [exact H |].
  exact (GetFileInfo_checksum servicer {| request_filename := "hello.txt" |}
           stored_fs response H).
Defined.

(** For a path whose [stat] reports no bytes and whose reading returns
    124, the answer has file_size 0 beside the checksum of the 124 bytes. *)
Example GetFileInfo_stat_zero :
  exists response : FileInfoResponse,
    Server.GetFileInfo servicer {| request_filename := "version" |} stat_zero_fs
    = Return response
    /\ exists_ response = true
    /\ file_size response = 0
    /\ checksum response
       = hashlib.hex_of_bytes (hashlib.md5_digest (repeat Byte.x4c 124))
    /\ checksum response
       <> hashlib.hex_of_bytes (hashlib.md5_digest []).
Proof.
  eexists. split; [vm_compute; reflexivity |].
  cbn [exists_ file_size checksum]. repeat split. vm_compute. discriminate.
Qed.

(** ** The calls of the client *)

(** X11. send_file returns True exactly when the stub returned a response
    with success=true and the clock moved between its two readings; a
    stub that raises, a response with success=false, and a successful
    response received with no time elapsed all give False. *)
Theorem send_file_decision (self : Client.FileTransferClient)
    (TransferFile : Client.gen_run -> exn + TransferResponse)
    (fs : gmap string node) (file_path : string) (start_time end_time : Z) :
  fst (Client.send_file self TransferFile fs file_path start_time end_time) = true
  <-> exists response : TransferResponse,
        TransferFile (Client._generate_file_chunks self fs file_path) = inr response
        /\ success response = true
        /\ end_time <> start_time.
Proof.
  unfold Client.send_file.
  destruct (TransferFile _) as [e | response].
  - split.
    + destruct e; discriminate.
    + intros (r & H & _). discriminate.
  - destruct (success response) eqn:Hs.
    + destruct (Z.eqb_spec (end_time - start_time) 0) as [Hz | Hnz]; cbn.
      * split; [discriminate |]. intros (r & _ & _ & Hne). lia.
      * split; [| reflexivity]. intros _. exists response.
        repeat split; [assumption | lia].
    + split; [discriminate |]. intros (r & [= <-] & Hr & _). congruence.
Qed.

(** No response of this servicer says success. *)
Lemma servicer_response_fails (srv : Server.FileTransferServicer)
    (cs : list FileChunk) (server_start server_end : Z) (w : Server.world) :
  success (fst (Server.TransferFile srv cs server_start server_end w)) = false.
Proof. rewrite TransferFile_result. reflexivity. Qed.

(** X12. Against this servicer send_file never returns True: whatever
    chunks reach TransferFile, on whatever machine and clock, its response
    has success=false, and a stub that brings back such a response, or
    raises, makes send_file return False. *)
Theorem send_file_fails_against_servicer (self : Client.FileTransferClient)
    (srv : Server.FileTransferServicer)
    (TransferFile : Client.gen_run -> exn + TransferResponse)
    (fs : gmap string node) (file_path : string) (start_time end_time : Z) :
  (forall run response,
      TransferFile run = inr response ->
      exists cs server_start server_end w,
        response = fst (Server.TransferFile srv cs server_start server_end w)) ->
  fst (Client.send_file self TransferFile fs file_path start_time end_time) = false.
Proof.
  intros Hstub. unfold Client.send_file.
  destruct (TransferFile _) as [e | response] eqn:Hcall.
  - destruct e; reflexivity.
  - destruct (Hstub _ _ Hcall) as (cs & s & e & w & ->).
    rewrite servicer_response_fails. reflexivity.
Qed.

Lemma send_file_fails_against_servicer_witness :
  fst (Client.send_file (client_with 2)
         (Client.TransferFile_rpc (loopback servicer (empty_world 100) 0 1 (client_with 2)))
         hello_fs "/tmp/hello.txt" 0 1) = false.
Proof.
  apply (send_file_fails_against_servicer (client_with 2) servicer).
  intros run response [= <-].
  exists (Client.yielded run), 0, 1, (empty_world 100). reflexivity.
Defined.

(** X13. verify_file against the servicer.  When the stub brings back what
    GetFileInfo answers, and raises when GetFileInfo raises, and the local
    file is a regular file, verify_file returns True exactly when the
    destination is a file that can be read and the MD5 checksum of what is
    read from it is that of the local content, as it is when the two
    contents are the same; an absent destination and a directory give
    False. *)
Theorem verify_file_against_servicer (self : Client.FileTransferClient)
    (srv : Server.FileTransferServicer) (files : gmap string node)
    (GetFileInfo : FileInfoRequest -> exn + FileInfoResponse)
    (local_fs : gmap string node) (name local_path : string) (content : bytes) :
  let request := {| request_filename := name |} in
  let target := Path_join (Server.upload_dir srv) name in
  (forall response, Server.GetFileInfo srv request files = Return response ->
                    GetFileInfo request = inr response) ->
  (forall e, Server.GetFileInfo srv request files = Raise e ->
             exists e', GetFileInfo request = inl e') ->
  local_fs !! local_path = Some (File content) ->
  fst (Client.verify_file self GetFileInfo local_fs name local_path)
  = Return match files !! target with
           | Some (File stored) | Some (Special _ stored) =>
               String.eqb (hashlib.hex_of_bytes (hashlib.md5_digest content))
                          (hashlib.hex_of_bytes (hashlib.md5_digest stored))
           | _ => false
           end
  /\ (files !! target = Some (File content) ->
      fst (Client.verify_file self GetFileInfo local_fs name local_path)
      = Return true).
Proof.
  intros request target Hok Hraise Hlocal.
  assert (Hmain :
    fst (Client.verify_file self GetFileInfo local_fs name local_path)
    = Return match files !! target with
             | Some (File stored) | Some (Special _ stored) =>
                 String.eqb (hashlib.hex_of_bytes (hashlib.md5_digest content))
                            (hashlib.hex_of_bytes (hashlib.md5_digest stored))
             | _ => false
             end).
  { unfold Client.verify_file. fold request.
    destruct (files !! target) as [[stored | | size stored] |] eqn:Hfile.
    - assert (Hopen : io.open_rb files target = inr stored)
        by (unfold io.open_rb; rewrite Hfile; reflexivity).
      rewrite (Hok _ (GetFileInfo_readable srv request files _ stored Hfile Hopen)).
      cbn [exists_ checksum].
      rewrite (calculate_md5_content local_fs local_path content Hlocal).
      destruct (String.eqb _ _); reflexivity.
    - destruct (Hraise (OSError "Is a directory")) as [e' ->]; [| reflexivity].
      unfold Server.GetFileInfo, io.open_rb. cbn [request_filename request].
      fold target. rewrite Hfile. reflexivity.
    - assert (Hopen : io.open_rb files target = inr stored)
        by (unfold io.open_rb; rewrite Hfile; reflexivity).
      rewrite (Hok _ (GetFileInfo_readable srv request files _ stored Hfile Hopen)).
      cbn [exists_ checksum].
      rewrite (calculate_md5_content local_fs local_path content Hlocal).
      destruct (String.eqb _ _); reflexivity.
    - rewrite (Hok {| exists_ := false; file_size := 0; checksum := "" |});
        [reflexivity |].
      unfold Server.GetFileInfo. cbn [request_filename request].
      fold target. rewrite Hfile. reflexivity. }
  split; [exact Hmain |].
  intros Hsame. rewrite Hmain, Hsame, String.eqb_refl. reflexivity.
Qed.

Lemma verify_file_against_servicer_witness :
  let target := Path_join (Server.upload_dir servicer) "hello.txt" in
  fst (Client.verify_file (client_with 2) (stub_GetFileInfo servicer stored_fs)
         hello_fs "hello.txt" "/tmp/hello.txt")
  = Return match stored_fs !! target with
           | Some (File stored) | Some (Special _ stored) =>
               String.eqb
                 (hashlib.hex_of_bytes (hashlib.md5_digest (ascii_bytes "hello")))
                 (hashlib.hex_of_bytes (hashlib.md5_digest stored))
           | _ => false
           end
  /\ (stored_fs !! target = Some (File (ascii_bytes "hello")) ->
      fst (Client.verify_file (client_with 2) (stub_GetFileInfo servicer stored_fs)
             hello_fs "hello.txt" "/tmp/hello.txt")
      = Return true).
Proof.
  apply (verify_file_against_servicer (client_with 2) servicer stored_fs
           (stub_GetFileInfo servicer stored_fs) hello_fs "hello.txt"
           "/tmp/hello.txt" (ascii_bytes "hello")).
  - intros response H. unfold stub_GetFileInfo. rewrite H. reflexivity.
  - intros e H. unfold stub_GetFileInfo. rewrite H. eauto.
  - reflexivity.
Defined.

(** X14. The exit status of main.  The process exits with status 1 exactly
    when it was not given two arguments or the path it was given does not
    exist, and then it called nothing; in every other case it exits with
    status 0, whether send_file returned True or False.  verify_file is
    called exactly when send_file returned True. *)
Theorem main_exit_status (argv : list string)
    (connect : Client.FileTransferClient -> Client.channel)
    (fs : gmap string node) (start_time end_time : Z) :
  let r := Client.main argv connect fs start_time end_time in
  (Client.exit_status r = 1
   <-> length argv <> 3%nat
       \/ exists path, argv !! 2%nat = Some path /\ fs !! path = None)
  /\ (Client.exit_status r = 1 ->
      Client.sent r = None /\ Client.verified r = None)
  /\ (Client.exit_status r <> 1 ->
      Client.exit_status r = 0 /\ is_Some (Client.sent r))
  /\ (is_Some (Client.verified r) <-> Client.sent r = Some true).
Proof.
  intros r. subst r.
  assert (Hbad : forall r : Client.main_run,
    r = {| Client.exit_status := 1; Client.sent := None; Client.verified := None |} ->
    (Client.exit_status r = 1 -> Client.sent r = None /\ Client.verified r = None)
    /\ (Client.exit_status r <> 1 ->
        Client.exit_status r = 0 /\ is_Some (Client.sent r))
    /\ (is_Some (Client.verified r) <-> Client.sent r = Some true)).
  { intros r ->. cbn. split; [tauto |]. split; [congruence |].
    split; [intros [v Hv]; discriminate | discriminate]. }
  destruct argv as [|prog [|ip [|path [|extra argv]]]]; cbn [Client.main].
  1-3, 5: split; [| apply Hbad; reflexivity]; cbn;
    split; [intros _; left; discriminate | reflexivity].
  destruct (fs !! path) as [nd |] eqn:Hpath.
  - destruct (fst (Client.send_file _ _ fs path start_time end_time)); cbn.
    + split.
      { split; [discriminate |].
        intros [Hlen | (p & [= <-] & Hp)]; [contradiction | congruence]. }
      repeat split; eauto; try discriminate.
    + split.
      { split; [discriminate |].
        intros [Hlen | (p & [= <-] & Hp)]; [contradiction | congruence]. }
      repeat split; eauto; try discriminate.
      intros [v Hv]. discriminate.
  - split; [| apply Hbad; reflexivity]. cbn.
    split; [| reflexivity]. intros _. right. exists path. split; [reflexivity | assumption].
Qed.

(** X15. main against this servicer.  Given two arguments and an existing
    path, over a channel whose TransferFile call brings back the servicer's
    response or raises, main finds send_file returning False, does not
    call verify_file, and exits with status 0. *)
Theorem main_against_servicer (srv : Server.FileTransferServicer)
    (prog ip path : string) (nd : node)
    (connect : Client.FileTransferClient -> Client.channel)
    (fs : gmap string node) (start_time end_time : Z) :
  fs !! path = Some nd ->
  (forall client run response,
      Client.TransferFile_rpc (connect client) run = inr response ->
      exists cs server_start server_end w,
        response = fst (Server.TransferFile srv cs server_start server_end w)) ->
  Client.main [prog; ip; path] connect fs start_time end_time
  = {| Client.exit_status := 0; Client.sent := Some false; Client.verified := None |}.
Proof.
  intros Hpath Hstub. cbn [Client.main]. rewrite Hpath.
  unfold Client.send_file.
  destruct (Client.TransferFile_rpc _ _) as [e | response] eqn:Hcall.
  - destruct e; reflexivity.
  - destruct (Hstub _ _ _ Hcall) as (cs & s & e & w & ->).
    rewrite servicer_response_fails. reflexivity.
Qed.

Lemma main_against_servicer_witness :
  Client.main ["client.py"; "127.0.0.1"; "/tmp/hello.txt"]%string
    (loopback servicer (empty_world 100) 0 1) hello_fs 0 1
  = {| Client.exit_status := 0; Client.sent := Some false; Client.verified := None |}.
Proof.
  apply (main_against_servicer servicer "client.py" "127.0.0.1" "/tmp/hello.txt"
           (File (ascii_bytes "hello"))).
  - reflexivity.
  - intros client run response [= <-].
    exists (Client.yielded run), 0, 1, (empty_world 100). reflexivity.
Defined.

(** ** The receive loop and a destination that is a directory *)

(** X16. When the name of the first chunk leads to a directory, as the
    empty name leads to the upload directory itself, the receive loop ends
    on that chunk in the exception of [open]: it has taken the name, but
    it wrote nothing, counted nothing and opened nothing. *)
Theorem receive_loop_directory (self : Server.FileTransferServicer)
    (c : FileChunk) (rest : list FileChunk) (w : Server.world) :
  let path := Path_join (Server.upload_dir self) (filename c) in
  Server.fs w !! path = Some Dir ->
  Server.receive_loop self (c :: rest)
    {| Server.vars := Server.initial_locals; Server.os := w |}
  = (inl (OSError "Is a directory"),
     {| Server.vars :=
          {| Server.filename := Some (filename c);
             Server.file_path := Some path;
             Server.total_bytes := 0;
             Server.chunks_received := 0;
             Server.f := None |};
        Server.os := w |}).
Proof.
  intros path Hdir. cbn [Server.receive_loop].
  unfold Server.bind, Server.receive_chunk, Server.bind, Server.get,
    Server.assign, Server.open_wb. cbn. fold path. rewrite Hdir. reflexivity.
Qed.

Lemma receive_loop_directory_witness :
  Path_join (Server.upload_dir servicer) (filename nameless_chunk) = "./uploads"%string
  /\ Server.receive_loop servicer [nameless_chunk]
       {| Server.vars := Server.initial_locals; Server.os := uploads_world |}
     = (inl (OSError "Is a directory"),
        {| Server.vars :=
             {| Server.filename := Some "";
                Server.file_path := Some "./uploads";
                Server.total_bytes := 0;
                Server.chunks_received := 0;
                Server.f := None |};
           Server.os := uploads_world |}).
Proof.
  split; [reflexivity |].
  apply (receive_loop_directory servicer nameless_chunk [] uploads_world).
  reflexivity.
Defined.
